(** * Arkham protocol initialisation script: a shallow embedding

    The repository's provisioning logic is the script whose [main]
    brings the on-chain [ProtocolConfig] account and the ARKHAM mint into
    the state described by [CONFIG_PARAMS].  The script is embedded as a
    program over the calls it makes to its environment (the Anchor
    provider, the file system, the RPC node); a run is the interpretation
    of that program against an environment, and every statement below is
    about the trace of calls and console output such a run leaves. *)

From stdpp Require Import base option list strings gmap.
From Stdlib Require Import Ascii String NArith Lia.

Local Open Scope string_scope.
Local Open Scope list_scope.
Local Open Scope N_scope.

(* ===================================================================== *)
(** * Values *)
(* ===================================================================== *)

(** A web3.js [PublicKey] wraps the 256-bit number [_bn]; [equals]
    compares these numbers. *)
Definition PublicKey : Type := N.

Module PublicKeyOps.

(** [PublicKey.default]: the key made of 32 zero bytes. *)
Definition default : PublicKey := 0.

Definition equals (a b : PublicKey) : bool := N.eqb a b.

Definition b58_alphabet : string :=
  "123456789ABCDEFGHJKLMNPQRSTUVWXYZabcdefghijkmnopqrstuvwxyz".

Fixpoint index_of (c : ascii) (s : string) : option N :=
  match s with
  | EmptyString => None
  | String d s' => if Ascii.eqb c d then Some 0 else N.succ <$> index_of c s'
  end.

Fixpoint b58_value (acc : N) (s : string) : option N :=
  match s with
  | EmptyString => Some acc
  | String c s' =>
      match index_of c b58_alphabet with
      | Some d => b58_value (acc * 58 + d) s'
      | None => None
      end
  end.

Fixpoint leading_ones (s : string) : N :=
  match s with
  | String "1"%char s' => N.succ (leading_ones s')
  | _ => 0
  end.

Definition byte_length (n : N) : N := (N.size n + 7) / 8.

(** [new PublicKey(value)] for a base-58 string: the decoded buffer must
    be 32 bytes long, otherwise the constructor throws. *)
Definition of_base58 (s : string) : option PublicKey :=
  match b58_value 0 s with
  | Some n => if N.eqb (leading_ones s + byte_length n) 32 then Some n else None
  | None => None
  end.

End PublicKeyOps.

Record GeoPremium := { regionCode : N; premiumBps : N }.

(** The shape of the [CONFIG_PARAMS] object. *)
Record ConfigParams := {
  baseRatePerMb : N;
  protocolFeeBps : N;
  tierThresholds : list N;
  tierMultipliers : list N;
  tokensPer5gb : N;
  geoPremiums : list GeoPremium;
  oracleAuthority : PublicKey
}.

(** The decoded [protocolConfig] account.  The script reads it as [any];
    the fields it tests for presence before use are optional here, the
    fields it dereferences unconditionally are not. *)
Record ProtocolConfig := {
  pc_authority : PublicKey;
  pc_treasury : PublicKey;
  pc_baseRatePerMb : N;
  pc_protocolFeeBps : N;
  pc_tierThresholds : list N;
  pc_tierMultipliers : list N;
  pc_tokensPer5gb : option N;
  pc_arkhamTokenMint : option PublicKey;
  pc_oracleAuthority : option PublicKey;
  pc_reputationUpdater : PublicKey;
  pc_geoPremiums : option (list GeoPremium)
}.

(** What [connection.getAccountInfo] returns for an existing account. *)
Record AccountInfo := {
  ai_lamports : N;
  ai_owner : PublicKey;
  ai_data : list N
}.

Record Provider := {
  wallet_publicKey : PublicKey;
  rpcEndpoint : string
}.

Record IdlMetadata := { md_address : option string }.

(** The two fields of the parsed IDL the script looks at. *)
Record Idl := {
  idl_address : option string;
  idl_metadata : option IdlMetadata
}.

Record JsError := { err_name : string; err_message : string }.

Definition Error (msg : string) : JsError :=
  {| err_name := "Error"; err_message := msg |}.

Definition TypeError (msg : string) : JsError :=
  {| err_name := "TypeError"; err_message := msg |}.

Definition TxSig : Type := string.

(** [x !== null]. *)
Definition not_null {A : Type} (x : option A) : bool :=
  match x with Some _ => true | None => false end.

(* ===================================================================== *)
(** * Instructions sent to the on-chain program *)
(* ===================================================================== *)

Record InitializeArgs := {
  i_baseRatePerMb : N;
  i_protocolFeeBps : N;
  i_tierThresholds : list N;
  i_tierMultipliers : list N;
  i_tokensPer5gb : N;
  i_geoPremiums : list GeoPremium;
  i_oracleAuthority : PublicKey
}.

Record InitializeAccounts := {
  ia_protocolConfig : PublicKey;
  ia_treasury : PublicKey;
  ia_authority : PublicKey;
  ia_systemProgram : PublicKey
}.

(** Every argument of [updateProtocolConfig] is optional on the program
    side: [None] is the JavaScript [null], "keep the existing value". *)
Record UpdateArgs := {
  u_baseRatePerMb : option N;
  u_protocolFeeBps : option N;
  u_tierThresholds : option (list N);
  u_tierMultipliers : option (list N);
  u_tokensPer5gb : option N;
  u_geoPremiums : option (list GeoPremium);
  u_reputationUpdater : option PublicKey;
  u_oracleAuthority : option PublicKey
}.

Record UpdateAccounts := {
  ua_protocolConfig : PublicKey;
  ua_authority : PublicKey
}.

Record CloseAccounts := {
  ca_protocolConfig : PublicKey;
  ca_authority : PublicKey;
  ca_receiver : PublicKey
}.

Record MintAccounts := {
  ma_arkhamMint : PublicKey;
  ma_mintAuthority : PublicKey;
  ma_protocolConfig : PublicKey;
  ma_authority : PublicKey;
  ma_tokenProgram : PublicKey;
  ma_systemProgram : PublicKey
}.

Inductive Instruction :=
| IxInitializeProtocolConfig (args : InitializeArgs) (accs : InitializeAccounts)
| IxUpdateProtocolConfig (args : UpdateArgs) (accs : UpdateAccounts)
| IxCloseProtocolConfig (accs : CloseAccounts)
| IxInitializeArkhamMint (accs : MintAccounts).

(* ===================================================================== *)
(** * Programs over environment calls *)
(* ===================================================================== *)

(** The calls the script makes that the environment answers (Anchor,
    web3.js, Node's [fs] and [JSON], the RPC node); each of them can
    throw.  [new_Program] stands for [new Program(idl, provider)], whose
    handle the later calls use; [protocolConfig_fetch] for
    [program.account.protocolConfig.fetch]; [methods_rpc] for the
    [.rpc()] of a method builder. *)
Inductive Call : Type → Type :=
| AnchorProvider_env : Call Provider
| fs_existsSync (path : string) : Call bool
| fs_readFileSync (path : string) : Call string
| JSON_parse (text : string) : Call Idl
| new_PublicKey (value : option string) : Call PublicKey
| new_Program (idl : Idl) (provider : Provider) : Call unit
| findProgramAddressSync (seeds : list string) (programId : PublicKey)
    : Call (PublicKey * N)
| connection_getAccountInfo (address : PublicKey) : Call (option AccountInfo)
| protocolConfig_fetch (address : PublicKey) : Call ProtocolConfig
| methods_rpc (ix : Instruction) : Call TxSig.

Inductive Stream := Stdout | Stderr.

(** A console argument: a string or an error object.  Strings are kept
    by their source text: escape sequences stay as written and the
    interpolated values of a template literal are not rendered (a
    [${...}] whose evaluation can throw is a step of its own in the
    program). *)
Inductive LogArg :=
| Text (s : string)
| ErrorValue (e : JsError).

Inductive Prog (A : Type) : Type :=
| Ret (a : A)
| Throw (e : JsError)
| Print (s : Stream) (m : LogArg) (k : Prog A)
| Sleep (ms : N) (k : Prog A)
| Do {R : Type} (c : Call R) (k : JsError + R → Prog A).

Arguments Ret {A} a.
Arguments Throw {A} e.
Arguments Print {A} s m k.
Arguments Sleep {A} ms k.
Arguments Do {A R} c k.

Fixpoint bind {A B : Type} (p : Prog A) (f : A → Prog B) : Prog B :=
  match p with
  | Ret a => f a
  | Throw e => Throw e
  | Print s m k => Print s m (bind k f)
  | Sleep ms k => Sleep ms (bind k f)
  | Do c k => Do c (λ r, bind (k r) f)
  end.

(** [try { p } catch (e) { h e }]. *)
Fixpoint try_catch {A : Type} (p : Prog A) (h : JsError → Prog A) : Prog A :=
  match p with
  | Ret a => Ret a
  | Throw e => h e
  | Print s m k => Print s m (try_catch k h)
  | Sleep ms k => Sleep ms (try_catch k h)
  | Do c k => Do c (λ r, try_catch (k r) h)
  end.

(** [await c]: the environment's answer, rethrown when it is a fault. *)
Definition call {R : Type} (c : Call R) : Prog R :=
  Do c (λ r, match r with inl e => Throw e | inr v => Ret v end).

Definition console_log (s : string) : Prog unit := Print Stdout (Text s) (Ret tt).
Definition console_error (s : string) : Prog unit := Print Stderr (Text s) (Ret tt).
Definition console_error_value (e : JsError) : Prog unit :=
  Print Stderr (ErrorValue e) (Ret tt).
Definition setTimeout_await (ms : N) : Prog unit := Sleep ms (Ret tt).

Declare Scope prog_scope.
Delimit Scope prog_scope with prog.
Bind Scope prog_scope with Prog.
Notation "'let*' x ':=' c 'in' k" := (bind c (λ x, k))
  (at level 10, x pattern, c at level 100, k at level 200) : prog_scope.
Notation "c ';;' k" := (bind c (λ _, k))
  (at level 100, k at level 200, right associativity) : prog_scope.

(* ===================================================================== *)
(** * The script *)
(* ===================================================================== *)

(** [SystemProgram.programId], the all-ones base-58 string. *)
Definition SystemProgram_programId : PublicKey :=
  Eval vm_compute in
    default 0 (PublicKeyOps.of_base58 "11111111111111111111111111111111").

Definition TOKEN_PROGRAM_ID : PublicKey :=
  Eval vm_compute in
    default 0 (PublicKeyOps.of_base58 "TokenkegQfeZyiNwAJbNbGKPFXCWuBvf9Ss623VQ5DA").

(** The oracle server's key written in [CONFIG_PARAMS]. *)
Definition ORACLE_AUTHORITY : PublicKey :=
  Eval vm_compute in
    default 0 (PublicKeyOps.of_base58 "9WE7mxzUNFGJ4df3kuALhAWLmBmFkYvTt8LkMDFVuycC").

(** The [CONFIG_PARAMS] literal of the script. *)
Definition CONFIG_PARAMS_literal : ConfigParams := {|
  baseRatePerMb := 1500;
  protocolFeeBps := 200;
  tierThresholds := [100; 500; 1000];
  tierMultipliers := [10000; 12000; 15000];
  tokensPer5gb := 500000000;
  geoPremiums := [ {| regionCode := 0; premiumBps := 5000 |};
                   {| regionCode := 1; premiumBps := 4000 |};
                   {| regionCode := 2; premiumBps := 2000 |} ];
  oracleAuthority := ORACLE_AUTHORITY
|}.

Section Script.

(** The functions of the script read the module constant
    [CONFIG_PARAMS]; they are stated for an arbitrary value of it, and
    [CONFIG_PARAMS_literal] is the one the repository ships. *)
Variable CONFIG_PARAMS : ConfigParams.

(** [path.join(__dirname, "..", "target", "idl", "arkham_protocol.json")]. *)
Variable idlPath : string.

Local Open Scope prog_scope.

Definition loadIdl : Prog Idl :=
  let* present := call (fs_existsSync idlPath) in
  if negb present then
    Throw (Error "IDL file not found at: ${idlPath}")
  else
    let* idlString := call (fs_readFileSync idlPath) in
    call (JSON_parse idlString).

Definition getProtocolConfigPda (programId : PublicKey) : Prog (PublicKey * N) :=
  call (findProgramAddressSync ["protocol_config"] programId).

Definition getArkhamMintPda (programId : PublicKey) : Prog (PublicKey * N) :=
  call (findProgramAddressSync ["arkham_mint"] programId).

Definition getMintAuthorityPda (programId : PublicKey) : Prog (PublicKey * N) :=
  call (findProgramAddressSync ["arkham"; "mint"; "authority"] programId).

Definition accountExists (address : PublicKey) : Prog bool :=
  try_catch
    (let* accountInfo := call (connection_getAccountInfo address) in
     Ret (not_null accountInfo))
    (λ error, Ret false).

Definition fetchProtocolConfig (protocolConfigPda : PublicKey)
  : Prog (option ProtocolConfig) :=
  try_catch
    (let* config := call (protocolConfig_fetch protocolConfigPda) in
     Ret (Some config))
    (λ error,
      console_log "   ⚠️  Could not deserialize config (might be from old version)";;
      Ret None).

Definition getAccountInfo (address : PublicKey) : Prog (option AccountInfo) :=
  try_catch
    (call (connection_getAccountInfo address))
    (λ error, Ret None).

(** The transaction each [program.methods.X(...).accounts({...})]
    builder describes; [.rpc()] submits it. *)
Definition methods_initializeProtocolConfig
    (authority protocolConfigPda treasury : PublicKey) : Instruction :=
  IxInitializeProtocolConfig
    {| i_baseRatePerMb := baseRatePerMb CONFIG_PARAMS;
       i_protocolFeeBps := protocolFeeBps CONFIG_PARAMS;
       i_tierThresholds := tierThresholds CONFIG_PARAMS;
       i_tierMultipliers := tierMultipliers CONFIG_PARAMS;
       i_tokensPer5gb := tokensPer5gb CONFIG_PARAMS;
       i_geoPremiums := geoPremiums CONFIG_PARAMS;
       i_oracleAuthority := oracleAuthority CONFIG_PARAMS |}
    {| ia_protocolConfig := protocolConfigPda;
       ia_treasury := treasury;
       ia_authority := authority;
       ia_systemProgram := SystemProgram_programId |}.

Definition methods_updateProtocolConfig
    (authority protocolConfigPda : PublicKey) : Instruction :=
  IxUpdateProtocolConfig
    {| u_baseRatePerMb := Some (baseRatePerMb CONFIG_PARAMS);
       u_protocolFeeBps := Some (protocolFeeBps CONFIG_PARAMS);
       u_tierThresholds := Some (tierThresholds CONFIG_PARAMS);
       u_tierMultipliers := Some (tierMultipliers CONFIG_PARAMS);
       u_tokensPer5gb := Some (tokensPer5gb CONFIG_PARAMS);
       u_geoPremiums := Some (geoPremiums CONFIG_PARAMS);
       u_reputationUpdater := None; (* keep existing *)
       u_oracleAuthority := Some (oracleAuthority CONFIG_PARAMS) |}
    {| ua_protocolConfig := protocolConfigPda;
       ua_authority := authority |}.

Definition methods_closeProtocolConfig
    (authority protocolConfigPda : PublicKey) : Instruction :=
  IxCloseProtocolConfig
    {| ca_protocolConfig := protocolConfigPda;
       ca_authority := authority;
       ca_receiver := authority |}.

Definition methods_initializeArkhamMint
    (authority protocolConfigPda arkhamMintPda mintAuthorityPda : PublicKey)
  : Instruction :=
  IxInitializeArkhamMint
    {| ma_arkhamMint := arkhamMintPda;
       ma_mintAuthority := mintAuthorityPda;
       ma_protocolConfig := protocolConfigPda;
       ma_authority := authority;
       ma_tokenProgram := TOKEN_PROGRAM_ID;
       ma_systemProgram := SystemProgram_programId |}.

Definition initializeProtocolConfig
    (authority protocolConfigPda treasury : PublicKey) : Prog unit :=
  console_log "\n📝 Initializing Protocol Config...";;
  try_catch
    (let* tx := call (methods_rpc
        (methods_initializeProtocolConfig authority protocolConfigPda treasury)) in
     console_log "✅ Protocol Config initialized successfully!";;
     console_log "   Transaction: ${tx}";;
     console_log "   Config PDA: ${protocolConfigPda.toBase58()}")
    (λ error,
      console_error "❌ Failed to initialize Protocol Config:";;
      console_error "   ${error.message}";;
      Throw error).

Definition updateProtocolConfig
    (authority protocolConfigPda : PublicKey) : Prog unit :=
  console_log "\n🔄 Updating Protocol Config...";;
  try_catch
    (let* tx := call (methods_rpc
        (methods_updateProtocolConfig authority protocolConfigPda)) in
     console_log "✅ Protocol Config updated successfully!";;
     console_log "   Transaction: ${tx}")
    (λ error,
      console_error "❌ Failed to update Protocol Config:";;
      console_error "   ${error.message}";;
      Throw error).

Definition closeProtocolConfig
    (authority protocolConfigPda : PublicKey) : Prog unit :=
  console_log "\n🗑️  Attempting to close existing Protocol Config...";;
  try_catch
    (let* tx := call (methods_rpc
        (methods_closeProtocolConfig authority protocolConfigPda)) in
     console_log "✅ Protocol Config closed successfully!";;
     console_log "   Transaction: ${tx}")
    (λ error,
      console_error "❌ Failed to close Protocol Config:";;
      console_error "   ${error.message}";;
      Throw error).

Definition initializeArkhamMint
    (authority protocolConfigPda arkhamMintPda mintAuthorityPda : PublicKey)
  : Prog unit :=
  console_log "\n🪙 Initializing ARKHAM Token Mint...";;
  try_catch
    (let* tx := call (methods_rpc
        (methods_initializeArkhamMint
           authority protocolConfigPda arkhamMintPda mintAuthorityPda)) in
     console_log "✅ ARKHAM Mint initialized successfully!";;
     console_log "   Transaction: ${tx}";;
     console_log "   Mint PDA: ${arkhamMintPda.toBase58()}")
    (λ error,
      console_error "❌ Failed to initialize ARKHAM Mint:";;
      console_error "   ${error.message}";;
      Throw error).

(** [idl.address || idl.metadata.address]: an absent or empty
    [idl.address] falls through to the metadata, whose absence is a
    [TypeError]. *)
Definition idl_address_or_metadata (idl : Idl) : Prog (option string) :=
  let fallback :=
    match idl_metadata idl with
    | Some metadata => Ret (md_address metadata)
    | None => Throw (TypeError "Cannot read properties of undefined (reading 'address')")
    end in
  match idl_address idl with
  | Some a => if String.eqb a "" then fallback else Ret (Some a)
  | None => fallback
  end.

(** [needsOracleUpdate], lines 386-389 of [main]. *)
Definition needsOracleUpdate (existingConfig : ProtocolConfig) : bool :=
  match pc_oracleAuthority existingConfig with
  | None => true
  | Some key =>
      PublicKeyOps.equals key PublicKeyOps.default
      || negb (PublicKeyOps.equals key (oracleAuthority CONFIG_PARAMS))
  end.

(** [mintIsInitialized], lines 409-411 of [main]. *)
Definition mintIsInitialized (currentConfig : ProtocolConfig) : bool :=
  match pc_arkhamTokenMint currentConfig with
  | None => false
  | Some key => negb (PublicKeyOps.equals key PublicKeyOps.default)
  end.

(** Step 4 of [main]: handle the protocol config. *)
Definition main_step4 (authority protocolConfigPda : PublicKey) : Prog unit :=
  console_log "\n🔍 Checking Protocol Config status...";;
  let* accountInfo := getAccountInfo protocolConfigPda in
  let accountPhysicallyExists := not_null accountInfo in
  let* existingConfig := fetchProtocolConfig protocolConfigPda in
  if negb accountPhysicallyExists then
    console_log "   Status: Not initialized (no account)";;
    initializeProtocolConfig authority protocolConfigPda authority
  else
    match existingConfig with
    | None =>
        console_log "   Status: Account exists but cannot be deserialized";;
        console_log "   This likely means the account is from an old program version.";;
        console_log "\n⚠️  OPTIONS:";;
        console_log "   1. Close the old account and reinitialize (requires close_protocol_config instruction)";;
        console_log "   2. Manually migrate the data";;
        console_log "   3. Use a different PDA seed\n";;
        console_log "   Attempting to close and reinitialize...";;
        try_catch
          (closeProtocolConfig authority protocolConfigPda;;
           setTimeout_await 2000;;
           initializeProtocolConfig authority protocolConfigPda authority)
          (λ closeError,
            console_error "\n❌ Could not close existing account.";;
            console_error "   You may need to:";;
            console_error "   1. Add a close_protocol_config instruction to your program";;
            console_error "   2. Redeploy with a different program ID";;
            console_error "   3. Use solana CLI to close the account manually";;
            Throw (Error "Cannot proceed - account exists but is incompatible"))
    | Some existingConfig =>
        console_log "   Status: Already initialized and compatible";;
        console_log "   Current authority: ${existingConfig.authority.toBase58()}";;
        console_log "   Current base rate: ${existingConfig.baseRatePerMb.toString()}";;
        if needsOracleUpdate existingConfig then
          console_log "   ⚠️  Oracle authority needs to be set/updated";;
          updateProtocolConfig authority protocolConfigPda
        else
          console_log "   ✅ Configuration is up to date"
    end.

(** Step 5 of [main]: handle the ARKHAM mint. *)
Definition main_step5
    (authority protocolConfigPda arkhamMintPda mintAuthorityPda : PublicKey)
  : Prog unit :=
  console_log "\n🔍 Checking ARKHAM Mint status...";;
  let* currentConfig := fetchProtocolConfig protocolConfigPda in
  match currentConfig with
  | None =>
      Throw (Error "Protocol Config must be initialized before mint initialization")
  | Some currentConfig =>
      if mintIsInitialized currentConfig then
        console_log "   Status: Already initialized";;
        console_log "   Mint address: ${currentConfig.arkhamTokenMint.toBase58()}"
      else
        console_log "   Status: Not initialized";;
        let* mintExists := accountExists arkhamMintPda in
        if mintExists then
          console_log "⚠️  Mint account exists but not linked in config!";;
          console_log "   This might indicate a previous failed transaction.";;
          console_log "   Manual intervention may be required."
        else
          initializeArkhamMint authority protocolConfigPda arkhamMintPda mintAuthorityPda
  end.

(** Step 6 of [main]: the summary.  [finalConfig] is dereferenced
    without a null test, so a failed re-fetch is a [TypeError] at the
    first field read; [arkhamTokenMint] is dereferenced without the
    presence test the other optional fields get.  The two rules are
    ["=".repeat(50)] written out, and the separator of the two [join]s is
    quoted with single quotes here. *)
Definition main_step6 (protocolConfigPda : PublicKey) : Prog unit :=
  console_log "\n==================================================";;
  console_log "✨ Initialization Complete!";;
  console_log "==================================================";;
  let* finalConfig := fetchProtocolConfig protocolConfigPda in
  console_log "\n📋 Final Configuration:";;
  console_log "   Protocol Config: ${protocolConfigPda.toBase58()}";;
  match finalConfig with
  | None => Throw (TypeError "Cannot read properties of null (reading 'authority')")
  | Some finalConfig =>
      console_log "   Authority: ${finalConfig.authority.toBase58()}";;
      console_log "   Treasury: ${finalConfig.treasury.toBase58()}";;
      console_log "   Base Rate (per MB): ${finalConfig.baseRatePerMb.toString()} lamports";;
      console_log "   Protocol Fee: ${finalConfig.protocolFeeBps / 100}%";;
      console_log "   Tier Thresholds: [${finalConfig.tierThresholds.map((t: any) => t.toString()).join(', ')}]";;
      console_log "   Tier Multipliers: [${finalConfig.tierMultipliers.join(', ')}]";;
      console_log "   Tokens per 5GB: ${finalConfig.tokensPer5gb ? finalConfig.tokensPer5gb.toString() : 'N/A'}";;
      match pc_arkhamTokenMint finalConfig with
      | None => Throw (TypeError "Cannot read properties of undefined (reading 'toBase58')")
      | Some _ =>
          console_log "   ARKHAM Mint: ${finalConfig.arkhamTokenMint.toBase58()}";;
          console_log "   Oracle Authority: ${finalConfig.oracleAuthority ? finalConfig.oracleAuthority.toBase58() : 'Not set'}";;
          console_log "   Reputation Updater: ${finalConfig.reputationUpdater.toBase58()}";;
          console_log "   Geographic Premiums: ${finalConfig.geoPremiums ? finalConfig.geoPremiums.length : 0} regions configured";;
          console_log "\n✅ Protocol is ready for use!\n"
      end
  end.

Definition main : Prog unit :=
  console_log "🚀 Arkham Protocol Initialization Script";;
  console_log "==========================================\n";;
  (* Step 1: provider *)
  console_log "📡 Setting up connection...";;
  let* provider := call AnchorProvider_env in
  let authority := wallet_publicKey provider in
  console_log "   Authority: ${authority.toBase58()}";;
  console_log "   Network: ${provider.connection.rpcEndpoint}";;
  (* Step 2: IDL and program instance *)
  console_log "\n📚 Loading program IDL...";;
  let* idl := loadIdl in
  let* address := idl_address_or_metadata idl in
  let* programId := call (new_PublicKey address) in
  console_log "   Program ID: ${programId.toBase58()}";;
  call (new_Program idl provider);;
  console_log "✅ Program loaded successfully!";;
  (* Step 3: PDAs *)
  console_log "\n🔑 Deriving PDAs...";;
  let* protocolConfig := getProtocolConfigPda programId in
  let protocolConfigPda := protocolConfig.1 in
  let* arkhamMint := getArkhamMintPda programId in
  let arkhamMintPda := arkhamMint.1 in
  let* mintAuthority := getMintAuthorityPda programId in
  let mintAuthorityPda := mintAuthority.1 in
  console_log "   Protocol Config PDA: ${protocolConfigPda.toBase58()} (bump: ${protocolConfigBump})";;
  console_log "   ARKHAM Mint PDA: ${arkhamMintPda.toBase58()} (bump: ${arkhamMintBump})";;
  console_log "   Mint Authority PDA: ${mintAuthorityPda.toBase58()} (bump: ${mintAuthorityBump})";;
  main_step4 authority protocolConfigPda;;
  main_step5 authority protocolConfigPda arkhamMintPda mintAuthorityPda;;
  main_step6 protocolConfigPda.

(** The entry point: [main().then(() => process.exit(0)).catch(...)].
    The value of the program is the exit code. *)
Definition script : Prog N :=
  try_catch
    (main;; Ret 0)
    (λ error,
      console_error "\n❌ Script failed with error:";;
      console_error_value error;;
      Ret 1).

End Script.

(* ===================================================================== *)
(** * Runs *)
(* ===================================================================== *)

(** What a run leaves behind, in order: every environment call with the
    answer it got, every console line, every wait. *)
Inductive Event :=
| EvCall {R : Type} (c : Call R) (r : JsError + R)
| EvPrint (s : Stream) (m : LogArg)
| EvSleep (ms : N).

(** An environment: a hidden state and an answer to every call.  The
    state can hold anything (a ledger, a schedule of faults), so
    quantifying over environments covers every behaviour of the provider,
    the file system and the RPC node. *)
Record Env := {
  World : Type;
  respond : ∀ R : Type, Call R → World → (JsError + R) * World
}.

Record Run (W A : Type) := {
  trace : list Event;
  result : JsError + A;
  final : W
}.

Arguments trace {W A} _.
Arguments result {W A} _.
Arguments final {W A} _.

Fixpoint run (env : Env) {A : Type} (p : Prog A) (w : World env)
  : Run (World env) A :=
  match p with
  | Ret a => {| trace := []; result := inr a; final := w |}
  | Throw e => {| trace := []; result := inl e; final := w |}
  | Print s m k =>
      let rest := run env k w in
      {| trace := EvPrint s m :: trace rest;
         result := result rest; final := final rest |}
  | Sleep ms k =>
      let rest := run env k w in
      {| trace := EvSleep ms :: trace rest;
         result := result rest; final := final rest |}
  | Do c k =>
      let answer := respond env _ c w in
      let rest := run env (k answer.1) answer.2 in
      {| trace := EvCall c answer.1 :: trace rest;
         result := result rest; final := final rest |}
  end.

(** ** Reading a trace *)

Definition submission_of (ev : Event) : option (Instruction * (JsError + TxSig)) :=
  match ev with
  | EvCall c r =>
      match c in Call R return JsError + R → option (Instruction * (JsError + TxSig)) with
      | methods_rpc ix => λ r, Some (ix, r)
      | _ => λ _, None
      end r
  | _ => None
  end.

Definition fetch_of (ev : Event) : option (PublicKey * (JsError + ProtocolConfig)) :=
  match ev with
  | EvCall c r =>
      match c in Call R return JsError + R → option (PublicKey * (JsError + ProtocolConfig)) with
      | protocolConfig_fetch a => λ r, Some (a, r)
      | _ => λ _, None
      end r
  | _ => None
  end.

Definition info_of (ev : Event) : option (PublicKey * (JsError + option AccountInfo)) :=
  match ev with
  | EvCall c r =>
      match c in Call R return JsError + R → option (PublicKey * (JsError + option AccountInfo)) with
      | connection_getAccountInfo a => λ r, Some (a, r)
      | _ => λ _, None
      end r
  | _ => None
  end.

Definition print_of (ev : Event) : option (Stream * LogArg) :=
  match ev with
  | EvPrint s m => Some (s, m)
  | _ => None
  end.

(** The transactions submitted, each with the node's verdict. *)
Definition submissions (tr : list Event) : list (Instruction * (JsError + TxSig)) :=
  omap submission_of tr.

(** The instructions submitted, in order. *)
Definition submitted (tr : list Event) : list Instruction :=
  (submissions tr).*1.

(** The typed fetches of the config account, each with its answer. *)
Definition fetches (tr : list Event) : list (PublicKey * (JsError + ProtocolConfig)) :=
  omap fetch_of tr.

(** The raw account probes, each with its answer. *)
Definition infos (tr : list Event) : list (PublicKey * (JsError + option AccountInfo)) :=
  omap info_of tr.

(** The console output. *)
Definition printed (tr : list Event) : list (Stream * LogArg) :=
  omap print_of tr.

Definition confirmed (s : Instruction * (JsError + TxSig)) : bool :=
  match s.2 with inr _ => true | inl _ => false end.

Definition all_confirmed (tr : list Event) : bool :=
  forallb confirmed (submissions tr).

(** ** Every run at once *)

(** [wp p Q]: [Q] holds of the trace and the result of [p] whatever the
    environment answers. *)
Fixpoint wp {A : Type} (p : Prog A) (Q : list Event → JsError + A → Prop) : Prop :=
  match p with
  | Ret a => Q [] (inr a)
  | Throw e => Q [] (inl e)
  | Print s m k => wp k (λ tr o, Q (EvPrint s m :: tr) o)
  | Sleep ms k => wp k (λ tr o, Q (EvSleep ms :: tr) o)
  | Do c k => ∀ r, wp (k r) (λ tr o, Q (EvCall c r :: tr) o)
  end.

(* ===================================================================== *)
(** * A ledger to run the script against *)
(* ===================================================================== *)

Module Ledger.

(** Modelled from the spec: the contents of a remote address.  The
    on-chain program and its account layout are not among the sources;
    the spec's [ObservedState] distinguishes bytes that decode to the
    config record from bytes that do not, and names the mint as the
    dependent resource. *)
Inductive Account :=
| ConfigAccount (c : ProtocolConfig)
| MintAccount
| ForeignAccount (authority : PublicKey).

(** Modelled from the spec: the remote account store ([fetchRaw],
    [submit]) together with the wallet that signs and a schedule of
    transport faults, one flag per RPC round trip still to come ([true]:
    that call fails with a network error; an exhausted schedule means a
    healthy connection). *)
Record State := {
  accounts : gmap N Account;
  wallet : PublicKey;
  faults : list bool
}.

Definition set_accounts (w : State) (m : gmap N Account) : State :=
  {| accounts := m; wallet := wallet w; faults := faults w |}.

Definition network_error : JsError :=
  {| err_name := "FetchError"; err_message := "failed to reach the RPC node" |}.

Definition rejected (cause : string) : JsError :=
  {| err_name := "SendTransactionError"; err_message := cause |}.

(** Modelled from the spec: one RPC round trip of the remote ledger
    client, which consumes the next fault flag (a "Transient" failure of
    section 7). *)
Definition transport (w : State) : bool * State :=
  match faults w with
  | [] => (false, w)
  | f :: fs => (f, {| accounts := accounts w; wallet := wallet w; faults := fs |})
  end.

(** Modelled from the spec: program-derived addresses.  The hash that
    derives them is not modelled; the three seeds of the script get
    three distinct addresses. *)
Definition CONFIG_PDA : PublicKey := 1001.
Definition MINT_PDA : PublicKey := 1002.
Definition MINT_AUTHORITY_PDA : PublicKey := 1003.

Definition pda (seeds : list string) : PublicKey :=
  if decide (seeds = ["protocol_config"]) then CONFIG_PDA
  else if decide (seeds = ["arkham_mint"]) then MINT_PDA
  else if decide (seeds = ["arkham"; "mint"; "authority"]) then MINT_AUTHORITY_PDA
  else 1000.

(** Modelled from the spec: the IDL file is not among the sources; the
    model IDL only names a program address. *)
Definition PROGRAM_ID : string := "11111111111111111111111111111112".

Definition idl : Idl := {| idl_address := Some PROGRAM_ID; idl_metadata := None |}.

(** Modelled from the spec: what [fetchRaw] returns for an occupied
    address; the script only tests it for [null]. *)
Definition raw_info (a : Account) : AccountInfo :=
  {| ai_lamports := 1; ai_owner := 1; ai_data := [] |}.

(** Modelled from the spec: [Initialize] creates the config record at a
    free address with the submitted fields and a null-identity link to
    the dependent resource (scenario A); an occupied address rejects it
    (section 4.4). *)
Definition initialize (args : InitializeArgs) (accs : InitializeAccounts)
    (w : State) : (JsError + TxSig) * State :=
  match accounts w !! ia_protocolConfig accs with
  | Some _ => (inl (rejected "account already in use"), w)
  | None =>
      (inr "tx-initialize",
       set_accounts w (<[ia_protocolConfig accs :=
         ConfigAccount {|
           pc_authority := ia_authority accs;
           pc_treasury := ia_treasury accs;
           pc_baseRatePerMb := i_baseRatePerMb args;
           pc_protocolFeeBps := i_protocolFeeBps args;
           pc_tierThresholds := i_tierThresholds args;
           pc_tierMultipliers := i_tierMultipliers args;
           pc_tokensPer5gb := Some (i_tokensPer5gb args);
           pc_arkhamTokenMint := Some PublicKeyOps.default;
           pc_oracleAuthority := Some (i_oracleAuthority args);
           pc_reputationUpdater := PublicKeyOps.default;
           pc_geoPremiums := Some (i_geoPremiums args) |}]> (accounts w)))
  end.

(** Modelled from the spec: an [Update] field is either "no change"
    ([None]) or the new value (section 4.3). *)
Definition apply_update (args : UpdateArgs) (c : ProtocolConfig) : ProtocolConfig :=
  {| pc_authority := pc_authority c;
     pc_treasury := pc_treasury c;
     pc_baseRatePerMb := default (pc_baseRatePerMb c) (u_baseRatePerMb args);
     pc_protocolFeeBps := default (pc_protocolFeeBps c) (u_protocolFeeBps args);
     pc_tierThresholds := default (pc_tierThresholds c) (u_tierThresholds args);
     pc_tierMultipliers := default (pc_tierMultipliers c) (u_tierMultipliers args);
     pc_tokensPer5gb :=
       match u_tokensPer5gb args with Some v => Some v | None => pc_tokensPer5gb c end;
     pc_arkhamTokenMint := pc_arkhamTokenMint c;
     pc_oracleAuthority :=
       match u_oracleAuthority args with Some v => Some v | None => pc_oracleAuthority c end;
     pc_reputationUpdater := default (pc_reputationUpdater c) (u_reputationUpdater args);
     pc_geoPremiums :=
       match u_geoPremiums args with Some v => Some v | None => pc_geoPremiums c end |}.

(** Modelled from the spec: a mutation is rejected when the caller is
    not the authority the record names ([AuthorityMismatch], section 7). *)
Definition update (args : UpdateArgs) (accs : UpdateAccounts)
    (w : State) : (JsError + TxSig) * State :=
  match accounts w !! ua_protocolConfig accs with
  | Some (ConfigAccount c) =>
      if PublicKeyOps.equals (pc_authority c) (ua_authority accs) then
        (inr "tx-update",
         set_accounts w (<[ua_protocolConfig accs :=
           ConfigAccount (apply_update args c)]> (accounts w)))
      else (inl (rejected "AuthorityMismatch"), w)
  | _ => (inl (rejected "account is not a protocol config"), w)
  end.

(** Modelled from the spec: [Close] frees the address, for its
    authority only. *)
Definition close (accs : CloseAccounts) (w : State) : (JsError + TxSig) * State :=
  match accounts w !! ca_protocolConfig accs with
  | Some (ConfigAccount c) =>
      if PublicKeyOps.equals (pc_authority c) (ca_authority accs) then
        (inr "tx-close", set_accounts w (delete (ca_protocolConfig accs) (accounts w)))
      else (inl (rejected "AuthorityMismatch"), w)
  | Some (ForeignAccount a) =>
      if PublicKeyOps.equals a (ca_authority accs) then
        (inr "tx-close", set_accounts w (delete (ca_protocolConfig accs) (accounts w)))
      else (inl (rejected "AuthorityMismatch"), w)
  | _ => (inl (rejected "account is not a protocol config"), w)
  end.

(** Modelled from the spec: [InitializeDependent] creates the mint at
    its free address and stores that address in the config record's
    link field (section 3, "Dependent resource link"). *)
Definition initialize_mint (accs : MintAccounts) (w : State)
  : (JsError + TxSig) * State :=
  match accounts w !! ma_protocolConfig accs with
  | Some (ConfigAccount c) =>
      if PublicKeyOps.equals (pc_authority c) (ma_authority accs) then
        match accounts w !! ma_arkhamMint accs with
        | Some _ => (inl (rejected "account already in use"), w)
        | None =>
            (inr "tx-initialize-mint",
             set_accounts w
               (<[ma_arkhamMint accs := MintAccount]>
                 (<[ma_protocolConfig accs :=
                    ConfigAccount {|
                      pc_authority := pc_authority c;
                      pc_treasury := pc_treasury c;
                      pc_baseRatePerMb := pc_baseRatePerMb c;
                      pc_protocolFeeBps := pc_protocolFeeBps c;
                      pc_tierThresholds := pc_tierThresholds c;
                      pc_tierMultipliers := pc_tierMultipliers c;
                      pc_tokensPer5gb := pc_tokensPer5gb c;
                      pc_arkhamTokenMint := Some (ma_arkhamMint accs);
                      pc_oracleAuthority := pc_oracleAuthority c;
                      pc_reputationUpdater := pc_reputationUpdater c;
                      pc_geoPremiums := pc_geoPremiums c |}]> (accounts w))))
        end
      else (inl (rejected "AuthorityMismatch"), w)
  | _ => (inl (rejected "account is not a protocol config"), w)
  end.

(** Modelled from the spec: [submit], the on-chain program's dispatch. *)
Definition submit (ix : Instruction) (w : State) : (JsError + TxSig) * State :=
  match ix with
  | IxInitializeProtocolConfig args accs => initialize args accs w
  | IxUpdateProtocolConfig args accs => update args accs w
  | IxCloseProtocolConfig accs => close accs w
  | IxInitializeArkhamMint accs => initialize_mint accs w
  end.

(** Modelled from the spec: the typed fetch ([decode] of section 4.1
    behind Anchor's fetch); a missing account and undecodable bytes both
    make it throw. *)
Definition fetch (a : PublicKey) (w : State) : JsError + ProtocolConfig :=
  match accounts w !! a with
  | Some (ConfigAccount c) => inr c
  | Some _ => inl (Error "Invalid account discriminator")
  | None => inl (Error "Account does not exist or has no data")
  end.

(** Modelled from the spec: an RPC call; a faulty round trip throws and
    leaves the ledger untouched. *)
Definition over_network {R : Type} (w : State)
    (f : State → (JsError + R) * State) : (JsError + R) * State :=
  let (fault, w') := transport w in
  if fault then (inl network_error, w') else f w'.

(** Modelled from the spec: the environment as a whole.  The provider,
    the file system, the IDL and the address derivation always answer;
    the three RPC calls go over the network to the ledger. *)
Definition answer (R : Type) (c : Call R) (w : State) : (JsError + R) * State :=
  match c in Call R return (JsError + R) * State with
  | AnchorProvider_env =>
      (inr {| wallet_publicKey := wallet w; rpcEndpoint := "http://localhost:8899" |}, w)
  | fs_existsSync _ => (inr true, w)
  | fs_readFileSync _ => (inr "{}", w)
  | JSON_parse _ => (inr idl, w)
  | new_PublicKey value =>
      (match value ≫= PublicKeyOps.of_base58 with
       | Some key => inr key
       | None => inl (Error "Invalid public key input")
       end, w)
  | new_Program _ _ => (inr tt, w)
  | findProgramAddressSync seeds _ => (inr (pda seeds, 255), w)
  | connection_getAccountInfo a =>
      over_network w (λ w', (inr (raw_info <$> accounts w' !! a), w'))
  | protocolConfig_fetch a =>
      over_network w (λ w', (fetch a w', w'))
  | methods_rpc ix =>
      over_network w (submit ix)
  end.

Definition env : Env := {| World := State; respond := answer |}.

End Ledger.

(* ===================================================================== *)
(** * The vocabulary of the specification *)
(* ===================================================================== *)

Inductive ObservedState :=
| Absent
| Incompatible
| Compatible (fields : ProtocolConfig).

Inductive Action :=
| Initialize
| Update (delta : UpdateArgs)
| Close
| InitializeDependent.

Definition action_of (ix : Instruction) : Action :=
  match ix with
  | IxInitializeProtocolConfig _ _ => Initialize
  | IxUpdateProtocolConfig delta _ => Update delta
  | IxCloseProtocolConfig _ => Close
  | IxInitializeArkhamMint _ => InitializeDependent
  end.

(** The plan a run carried out: the actions behind its submissions. *)
Definition plan (tr : list Event) : list Action := action_of <$> submitted tr.

(** The three-way classification the branches of step 4 make of
    [accountInfo] and [existingConfig] (lines 346, 355 and 379). *)
Definition observed (accountInfo : option AccountInfo)
    (existingConfig : option ProtocolConfig) : ObservedState :=
  if negb (not_null accountInfo) then Absent
  else match existingConfig with
       | None => Incompatible
       | Some c => Compatible c
       end.

(** What [getAccountInfo] hands back for the first raw probe of a trace:
    the node's answer, [null] when the call threw. *)
Definition probe_account (tr : list Event) : option AccountInfo :=
  match infos tr with
  | (_, inr info) :: _ => info
  | _ => None
  end.

(** What [fetchProtocolConfig] hands back for the first typed fetch of a
    trace: the decoded record, [null] when the call threw. *)
Definition probe_config (tr : list Event) : option ProtocolConfig :=
  match fetches tr with
  | (_, inr c) :: _ => Some c
  | _ => None
  end.

(** The state a trace's first probes observed. *)
Definition observed_in (tr : list Event) : ObservedState :=
  observed (probe_account tr) (probe_config tr).

(** The answer to the [n]-th typed fetch of the config account: [main]
    fetches it in step 4 (index 0), again as the gate of step 5 (index 1)
    and a last time for the summary (index 2). *)
Definition nth_fetch (n : nat) (tr : list Event) : option (JsError + ProtocolConfig) :=
  snd <$> fetches tr !! n.

(** The address a trace derived for the given seeds. *)
Definition derive_of (seeds : list string) (ev : Event) : option PublicKey :=
  match ev with
  | EvCall c r =>
      match c in Call R return JsError + R → option PublicKey with
      | findProgramAddressSync seeds' _ => λ r,
          match r with
          | inr found => if decide (seeds' = seeds) then Some found.1 else None
          | inl _ => None
          end
      | _ => λ _, None
      end r
  | _ => None
  end.

Definition derived (seeds : list string) (tr : list Event) : option PublicKey :=
  head (omap (derive_of seeds) tr).

Definition is_mint_initialization (ix : Instruction) : bool :=
  match ix with IxInitializeArkhamMint _ => true | _ => false end.

Definition is_initialize (ix : Instruction) : bool :=
  match ix with IxInitializeProtocolConfig _ _ => true | _ => false end.

Definition on_stderr (tr : list Event) : list LogArg :=
  omap (λ ev, match ev with EvPrint Stderr m => Some m | _ => None end) tr.

Definition on_stdout (tr : list Event) : list LogArg :=
  omap (λ ev, match ev with EvPrint Stdout m => Some m | _ => None end) tr.

(** ** The decision table as the specification words it *)

#[global] Instance GeoPremium_eq_dec : EqDecision GeoPremium.
Proof. solve_decision. Defined.

#[global] Instance UpdateArgs_eq_dec : EqDecision UpdateArgs.
Proof. solve_decision. Defined.

(** "No change" against "set to this value", field by field. *)
Definition changed {A : Type} `{EqDecision A} (current : option A) (desired : A)
  : option A :=
  if decide (current = Some desired) then None else Some desired.

(** The delta of section 4.3: only the fields that differ from the
    observed state. *)
Definition spec_delta (D : ConfigParams) (c : ProtocolConfig) : UpdateArgs :=
  {| u_baseRatePerMb := changed (Some (pc_baseRatePerMb c)) (baseRatePerMb D);
     u_protocolFeeBps := changed (Some (pc_protocolFeeBps c)) (protocolFeeBps D);
     u_tierThresholds := changed (Some (pc_tierThresholds c)) (tierThresholds D);
     u_tierMultipliers := changed (Some (pc_tierMultipliers c)) (tierMultipliers D);
     u_tokensPer5gb := changed (pc_tokensPer5gb c) (tokensPer5gb D);
     u_geoPremiums := changed (pc_geoPremiums c) (geoPremiums D);
     u_reputationUpdater := None;
     u_oracleAuthority := changed (pc_oracleAuthority c) (oracleAuthority D) |}.

Definition no_change : UpdateArgs :=
  {| u_baseRatePerMb := None; u_protocolFeeBps := None;
     u_tierThresholds := None; u_tierMultipliers := None;
     u_tokensPer5gb := None; u_geoPremiums := None;
     u_reputationUpdater := None; u_oracleAuthority := None |}.

(** "Fields already equal desired (field-by-field)". *)
Definition spec_matches (D : ConfigParams) (c : ProtocolConfig) : bool :=
  bool_decide (spec_delta D c = no_change).

(** The decision table of section 4.3. *)
Definition spec_reconcile (D : ConfigParams) (obs : ObservedState) : list Action :=
  match obs with
  | Absent => [Initialize]
  | Incompatible => [Close; Initialize]
  | Compatible c => if spec_matches D c then [] else [Update (spec_delta D c)]
  end.

(** The one delta [updateProtocolConfig] ever sends. *)
Definition sent_delta (D : ConfigParams) : UpdateArgs :=
  {| u_baseRatePerMb := Some (baseRatePerMb D);
     u_protocolFeeBps := Some (protocolFeeBps D);
     u_tierThresholds := Some (tierThresholds D);
     u_tierMultipliers := Some (tierMultipliers D);
     u_tokensPer5gb := Some (tokensPer5gb D);
     u_geoPremiums := Some (geoPremiums D);
     u_reputationUpdater := None;
     u_oracleAuthority := Some (oracleAuthority D) |}.


(* ===================================================================== *)
(** * What each step of [main] leaves in a trace *)
(* ===================================================================== *)

(** The result of a helper that rethrows the node's rejection. *)
Definition of_verdict (v : JsError + TxSig) : JsError + unit :=
  match v with inr _ => inr tt | inl e => inl e end.

Definition cannot_proceed : JsError :=
  Error "Cannot proceed - account exists but is incompatible".

Definition config_required : JsError :=
  Error "Protocol Config must be initialized before mint initialization".

(** [getAccountInfo] turns a fault into [null]. *)
Definition swallow {A : Type} (r : JsError + option A) : option A :=
  match r with inr v => v | inl _ => None end.

(** [fetchProtocolConfig] turns a fault into [null]. *)
Definition decoded {A : Type} (r : JsError + A) : option A :=
  match r with inr v => Some v | inl _ => None end.

Definition mint_warnings : list LogArg :=
  [Text "⚠️  Mint account exists but not linked in config!";
   Text "   This might indicate a previous failed transaction.";
   Text "   Manual intervention may be required."].

Section Contracts.

Variable D : ConfigParams.
Variables authority pda mint mauth : PublicKey.

(** Step 4: one raw probe and one typed fetch of the config address, then
    the submissions the observed state calls for. *)
Definition Step4 (t : list Event) (o : JsError + unit) : Prop :=
  ∃ ri rf,
    infos t = [(pda, ri)] ∧ fetches t = [(pda, rf)] ∧
    match observed (swallow ri) (decoded rf) with
    | Absent =>
        ∃ v, submissions t
               = [(methods_initializeProtocolConfig D authority pda authority, v)]
             ∧ o = of_verdict v
    | Incompatible =>
        (∃ e, submissions t = [(methods_closeProtocolConfig authority pda, inl e)]
              ∧ o = inl cannot_proceed)
        ∨ (∃ tx v,
             submissions t
               = [(methods_closeProtocolConfig authority pda, inr tx);
                  (methods_initializeProtocolConfig D authority pda authority, v)]
             ∧ o = match v with inr _ => inr tt | inl _ => inl cannot_proceed end)
    | Compatible c =>
        if needsOracleUpdate D c then
          ∃ v, submissions t = [(methods_updateProtocolConfig D authority pda, v)]
               ∧ o = of_verdict v
        else submissions t = [] ∧ o = inr tt
    end.

(** Step 5: the gate's fetch, then at most one raw probe of the mint
    address and at most one submission. *)
Definition Step5 (t : list Event) (o : JsError + unit) : Prop :=
  ∃ rf,
    fetches t = [(pda, rf)] ∧
    match rf with
    | inl _ => infos t = [] ∧ submissions t = [] ∧ o = inl config_required
    | inr c =>
        if mintIsInitialized c then
          infos t = [] ∧ submissions t = [] ∧ o = inr tt
        else
          ∃ ri, infos t = [(mint, ri)] ∧
            if not_null (swallow ri) then
              submissions t = [] ∧ o = inr tt ∧ mint_warnings ⊆ on_stdout t
            else
              ∃ v, submissions t
                     = [(methods_initializeArkhamMint authority pda mint mauth, v)]
                   ∧ o = of_verdict v
    end.

(** Step 6: one more fetch; the summary needs the record and its link
    field. *)
Definition Step6 (t : list Event) (o : JsError + unit) : Prop :=
  ∃ rf,
    fetches t = [(pda, rf)] ∧ infos t = [] ∧ submissions t = [] ∧
    match rf with
    | inr c =>
        match pc_arkhamTokenMint c with
        | Some _ => o = inr tt
        | None => ∃ e, o = inl e
        end
    | inl _ => ∃ e, o = inl e
    end.

(** Steps 4 to 6 in sequence, as [main] runs them. *)
Definition steps : Prog unit :=
  (main_step4 D authority pda;;
   main_step5 authority pda mint mauth;;
   main_step6 pda)%prog.

End Contracts.

(** What the [catch] of the entry point prints. *)
Definition epilogue (e : JsError) : list Event :=
  [EvPrint Stderr (Text "\n❌ Script failed with error:");
   EvPrint Stderr (ErrorValue e)].

(** Steps 1 to 3 talk to the provider, the file system and the address
    derivation only. *)
Definition Quiet (pre : list Event) : Prop :=
  infos pre = [] ∧ fetches pre = [] ∧ submissions pre = [] ∧ on_stderr pre = [].

Inductive StepsRun (D : ConfigParams) (authority pda mint mauth : PublicKey)
  : list Event → JsError + unit → Prop :=
| stopped_in_step4 t4 e :
    Step4 D authority pda t4 (inl e) →
    StepsRun D authority pda mint mauth t4 (inl e)
| stopped_in_step5 t4 t5 e :
    Step4 D authority pda t4 (inr tt) →
    Step5 authority pda mint mauth t5 (inl e) →
    StepsRun D authority pda mint mauth (t4 ++ t5) (inl e)
| reached_step6 t4 t5 t6 o :
    Step4 D authority pda t4 (inr tt) →
    Step5 authority pda mint mauth t5 (inr tt) →
    Step6 pda t6 o →
    StepsRun D authority pda mint mauth (t4 ++ t5 ++ t6) o.

(** Every run of [main]: the set-up fails, or the three steps run on the
    addresses it derived. *)
Inductive MainRun (D : ConfigParams) : list Event → JsError + unit → Prop :=
| setup_failed pre e :
    Quiet pre →
    MainRun D pre (inl e)
| steps_ran pre authority pda mint mauth t o :
    Quiet pre → derived ["arkham_mint"] pre = Some mint →
    StepsRun D authority pda mint mauth t o →
    MainRun D (pre ++ t) o.

(** Every run of the script: [main] runs; a throw is reported on the
    error stream and the exit code is 1, otherwise it is 0. *)
Inductive ScriptRun (D : ConfigParams) : list Event → N → Prop :=
| main_threw t e :
    MainRun D t (inl e) →
    ScriptRun D (t ++ epilogue e) 1
| main_returned t :
    MainRun D t (inr tt) →
    ScriptRun D t 0.

(** A run with more events in front. *)
Definition prepend {W A : Type} (pre : list Event) (r : Run W A) : Run W A :=
  {| trace := pre ++ trace r; result := result r; final := final r |}.

(* ===================================================================== *)
(** * Ledger states *)
(* ===================================================================== *)

(** The primary resource after a successful step 4: a config record whose
    oracle authority is the desired one. *)
Definition Reconciled (D : ConfigParams) (w : Ledger.State) : Prop :=
  ∃ c, Ledger.accounts w !! Ledger.CONFIG_PDA = Some (Ledger.ConfigAccount c)
       ∧ pc_oracleAuthority c = Some (oracleAuthority D).

(** Both resources after a completed run: the config record is
    reconciled, and its link is set or the mint address is occupied. *)
Definition Settled (D : ConfigParams) (w : Ledger.State) : Prop :=
  ∃ c, Ledger.accounts w !! Ledger.CONFIG_PDA = Some (Ledger.ConfigAccount c)
       ∧ pc_oracleAuthority c = Some (oracleAuthority D)
       ∧ (mintIsInitialized c = true
          ∨ is_Some (Ledger.accounts w !! Ledger.MINT_PDA)).

(** The wallet and the IDL path of the runs below. *)
Definition WALLET : PublicKey := 77.

Definition IDL_PATH : string := "../target/idl/arkham_protocol.json".

(** The config record [Initialize] would write for [D], linked to [link]. *)
Definition config_of (D : ConfigParams) (authority link : PublicKey) : ProtocolConfig :=
  {| pc_authority := authority;
     pc_treasury := authority;
     pc_baseRatePerMb := baseRatePerMb D;
     pc_protocolFeeBps := protocolFeeBps D;
     pc_tierThresholds := tierThresholds D;
     pc_tierMultipliers := tierMultipliers D;
     pc_tokensPer5gb := Some (tokensPer5gb D);
     pc_arkhamTokenMint := Some link;
     pc_oracleAuthority := Some (oracleAuthority D);
     pc_reputationUpdater := PublicKeyOps.default;
     pc_geoPremiums := Some (geoPremiums D) |}.

Definition with_fee (D : ConfigParams) (fee : N) : ConfigParams :=
  {| baseRatePerMb := baseRatePerMb D;
     protocolFeeBps := fee;
     tierThresholds := tierThresholds D;
     tierMultipliers := tierMultipliers D;
     tokensPer5gb := tokensPer5gb D;
     geoPremiums := geoPremiums D;
     oracleAuthority := oracleAuthority D |}.

Definition with_oracle (D : ConfigParams) (key : PublicKey) : ConfigParams :=
  {| baseRatePerMb := baseRatePerMb D;
     protocolFeeBps := protocolFeeBps D;
     tierThresholds := tierThresholds D;
     tierMultipliers := tierMultipliers D;
     tokensPer5gb := tokensPer5gb D;
     geoPremiums := geoPremiums D;
     oracleAuthority := key |}.

Definition ledger_of (accts : list (N * Ledger.Account)) (faults : list bool)
  : Ledger.State :=
  {| Ledger.accounts := list_to_map accts;
     Ledger.wallet := WALLET;
     Ledger.faults := faults |}.

(** Nothing provisioned yet. *)
Definition ledger_empty : Ledger.State := ledger_of [] [].

(** The config record was initialised with a 1% fee; the mint is linked. *)
Definition ledger_fee100 : Ledger.State :=
  ledger_of
    [(Ledger.CONFIG_PDA,
      Ledger.ConfigAccount
        (config_of (with_fee CONFIG_PARAMS_literal 100) WALLET Ledger.MINT_PDA));
     (Ledger.MINT_PDA, Ledger.MintAccount)] [].

(** The config record equals the shipped parameters; the mint is linked. *)
Definition ledger_literal (faults : list bool) : Ledger.State :=
  ledger_of
    [(Ledger.CONFIG_PDA,
      Ledger.ConfigAccount (config_of CONFIG_PARAMS_literal WALLET Ledger.MINT_PDA));
     (Ledger.MINT_PDA, Ledger.MintAccount)] faults.

(** A link to an address that holds no account. *)
Definition STALE_MINT : PublicKey := 4242.

Definition ledger_stale_link : Ledger.State :=
  ledger_of
    [(Ledger.CONFIG_PDA,
      Ledger.ConfigAccount (config_of CONFIG_PARAMS_literal WALLET STALE_MINT))] [].

(** The config address holds bytes of another layout. *)
Definition ledger_foreign (owner : PublicKey) : Ledger.State :=
  ledger_of [(Ledger.CONFIG_PDA, Ledger.ForeignAccount owner)] [].


(* ===================================================================== *)
(** * The set-up of [main] and the pace of a run *)
(* ===================================================================== *)

(** The calls of steps 1 to 3 of [main] (provider, file system, JSON,
    key and program construction, address derivation), each with the
    answer it got. *)
Inductive SetupCall :=
| GotProvider (r : JsError + Provider)
| CheckedFile (path : string) (r : JsError + bool)
| ReadFile (path : string) (r : JsError + string)
| ParsedJson (text : string) (r : JsError + Idl)
| BuiltKey (value : option string) (r : JsError + PublicKey)
| BuiltProgram (idl : Idl) (provider : Provider) (r : JsError + unit)
| DerivedAddress (seeds : list string) (programId : PublicKey)
    (r : JsError + PublicKey * N).

Definition setup_call_of (ev : Event) : option SetupCall :=
  match ev with
  | EvCall c r =>
      match c in Call R return JsError + R → option SetupCall with
      | AnchorProvider_env => λ r, Some (GotProvider r)
      | fs_existsSync path => λ r, Some (CheckedFile path r)
      | fs_readFileSync path => λ r, Some (ReadFile path r)
      | JSON_parse text => λ r, Some (ParsedJson text r)
      | new_PublicKey value => λ r, Some (BuiltKey value r)
      | new_Program idl provider => λ r, Some (BuiltProgram idl provider r)
      | findProgramAddressSync seeds programId => λ r,
          Some (DerivedAddress seeds programId r)
      | _ => λ _, None
      end r
  | _ => None
  end.

(** The set-up calls of a trace, in order. *)
Definition setup_calls (tr : list Event) : list SetupCall :=
  omap setup_call_of tr.

(** The submissions and the waits of a run, in the order they happen. *)
Inductive Beat :=
| Submitted (ix : Instruction) (ok : bool)
| Waited (ms : N).

Definition beat_of (ev : Event) : option Beat :=
  match ev with
  | EvCall c r =>
      match c in Call R return JsError + R → option Beat with
      | methods_rpc ix => λ r,
          Some (Submitted ix (match r with inr _ => true | inl _ => false end))
      | _ => λ _, None
      end r
  | EvSleep ms => Some (Waited ms)
  | EvPrint _ _ => None
  end.

Definition timeline (tr : list Event) : list Beat :=
  omap beat_of tr.

(** What the script announces on the output stream: a transaction of
    some kind went through, or the protocol is ready. *)
Inductive Kind := KInitialize | KUpdate | KClose | KMint.

Inductive Announcement :=
| Succeeded (k : Kind)
| Ready.

Definition kind_of (ix : Instruction) : Kind :=
  match ix with
  | IxInitializeProtocolConfig _ _ => KInitialize
  | IxUpdateProtocolConfig _ _ => KUpdate
  | IxCloseProtocolConfig _ => KClose
  | IxInitializeArkhamMint _ => KMint
  end.

Definition announced (m : LogArg) : option Announcement :=
  match m with
  | Text s =>
      if String.eqb s "✅ Protocol Config initialized successfully!"
      then Some (Succeeded KInitialize)
      else if String.eqb s "✅ Protocol Config updated successfully!"
      then Some (Succeeded KUpdate)
      else if String.eqb s "✅ Protocol Config closed successfully!"
      then Some (Succeeded KClose)
      else if String.eqb s "✅ ARKHAM Mint initialized successfully!"
      then Some (Succeeded KMint)
      else if String.eqb s "\n✅ Protocol is ready for use!\n"
      then Some Ready
      else None
  | ErrorValue _ => None
  end.

(** The announcements of a run, in order. *)
Definition announcements (tr : list Event) : list Announcement :=
  omap announced (on_stdout tr).

(** The kinds of the transactions the node confirmed, in order. *)
Definition confirmations (tr : list Event) : list Kind :=
  omap (λ s : Instruction * (JsError + TxSig),
          match s.2 with inr _ => Some (kind_of s.1) | inl _ => None end)
       (submissions tr).

(** The calls of a set-up in which nothing fails, by the answers they
    got: they are made in this order. *)
Definition setup_script (p : string) (provider : Provider) (text : string)
    (idl : Idl) (address : option string) (programId : PublicKey)
    (config mint mauth : PublicKey * N) : list SetupCall :=
  [GotProvider (inr provider);
   CheckedFile p (inr true);
   ReadFile p (inr text);
   ParsedJson text (inr idl);
   BuiltKey address (inr programId);
   BuiltProgram idl provider (inr tt);
   DerivedAddress ["protocol_config"] programId (inr config);
   DerivedAddress ["arkham_mint"] programId (inr mint);
   DerivedAddress ["arkham"; "mint"; "authority"] programId (inr mauth)].

(** The value of [idl.address || idl.metadata.address] when reading it
    does not throw. *)
Definition idl_program_address (idl : Idl) (address : option string) : Prop :=
  idl_address_or_metadata idl = Ret address.

(** Steps 1 to 3 went through: what they left behind, and the addresses
    the later steps work with. *)
Definition SetUp (p : string) (pre : list Event)
    (authority pda mint mauth : PublicKey) : Prop :=
  Quiet pre ∧ timeline pre = [] ∧ announcements pre = [] ∧
  ∃ provider text idl address programId config mint' mauth',
    idl_program_address idl address ∧
    setup_calls pre
      = setup_script p provider text idl address programId config mint' mauth' ∧
    authority = wallet_publicKey provider ∧
    pda = config.1 ∧ mint = mint'.1 ∧ mauth = mauth'.1.

(** Steps 1 to 3 stopped: the calls made up to the one that failed, and
    the error [main] throws. *)
Inductive SetupStops (p : string) : list SetupCall → JsError → Prop :=
| no_provider e :
    SetupStops p [GotProvider (inl e)] e
| no_file_check provider e :
    SetupStops p [GotProvider (inr provider); CheckedFile p (inl e)] e
| idl_not_found provider :
    SetupStops p [GotProvider (inr provider); CheckedFile p (inr false)]
      (Error "IDL file not found at: ${idlPath}")
| idl_not_read provider e :
    SetupStops p
      [GotProvider (inr provider); CheckedFile p (inr true); ReadFile p (inl e)] e
| idl_not_parsed provider text e :
    SetupStops p
      [GotProvider (inr provider); CheckedFile p (inr true);
       ReadFile p (inr text); ParsedJson text (inl e)] e
| idl_without_address provider text idl e :
    idl_address_or_metadata idl = Throw e →
    SetupStops p
      [GotProvider (inr provider); CheckedFile p (inr true);
       ReadFile p (inr text); ParsedJson text (inr idl)] e
| no_program_key provider text idl address e :
    idl_program_address idl address →
    SetupStops p
      [GotProvider (inr provider); CheckedFile p (inr true);
       ReadFile p (inr text); ParsedJson text (inr idl);
       BuiltKey address (inl e)] e
| no_program provider text idl address programId e :
    idl_program_address idl address →
    SetupStops p
      [GotProvider (inr provider); CheckedFile p (inr true);
       ReadFile p (inr text); ParsedJson text (inr idl);
       BuiltKey address (inr programId); BuiltProgram idl provider (inl e)] e
| no_config_address provider text idl address programId e :
    idl_program_address idl address →
    SetupStops p
      [GotProvider (inr provider); CheckedFile p (inr true);
       ReadFile p (inr text); ParsedJson text (inr idl);
       BuiltKey address (inr programId); BuiltProgram idl provider (inr tt);
       DerivedAddress ["protocol_config"] programId (inl e)] e
| no_mint_address provider text idl address programId config e :
    idl_program_address idl address →
    SetupStops p
      [GotProvider (inr provider); CheckedFile p (inr true);
       ReadFile p (inr text); ParsedJson text (inr idl);
       BuiltKey address (inr programId); BuiltProgram idl provider (inr tt);
       DerivedAddress ["protocol_config"] programId (inr config);
       DerivedAddress ["arkham_mint"] programId (inl e)] e
| no_mint_authority_address provider text idl address programId config mint e :
    idl_program_address idl address →
    SetupStops p
      [GotProvider (inr provider); CheckedFile p (inr true);
       ReadFile p (inr text); ParsedJson text (inr idl);
       BuiltKey address (inr programId); BuiltProgram idl provider (inr tt);
       DerivedAddress ["protocol_config"] programId (inr config);
       DerivedAddress ["arkham_mint"] programId (inr mint);
       DerivedAddress ["arkham"; "mint"; "authority"] programId (inl e)] e.

(** Every run of [main] by stages: the set-up stops, or steps 4 to 6 run
    on what it derived and leave a trace for which [P] holds. *)
Definition Staged (p : string)
    (P : PublicKey → PublicKey → PublicKey → PublicKey →
         list Event → JsError + unit → Prop)
    (tr : list Event) (o : JsError + unit) : Prop :=
  (∃ e, o = inl e ∧ Quiet tr ∧ timeline tr = [] ∧ announcements tr = []
        ∧ SetupStops p (setup_calls tr) e)
  ∨ (∃ pre authority pda mint mauth t,
       tr = pre ++ t ∧ SetUp p pre authority pda mint mauth
       ∧ P authority pda mint mauth t o).

(** What the entry point adds to a run of [main]. *)
Definition exit_report (o : JsError + unit) : list Event :=
  match o with inl e => epilogue e | inr _ => [] end.

Definition exit_code (o : JsError + unit) : N :=
  match o with inl _ => 1 | inr _ => 0 end.

(** The four transactions the script can build for given addresses. *)
Definition own_transactions (D : ConfigParams)
    (authority pda mint mauth : PublicKey) : list Instruction :=
  [methods_initializeProtocolConfig D authority pda authority;
   methods_updateProtocolConfig D authority pda;
   methods_closeProtocolConfig authority pda;
   methods_initializeArkhamMint authority pda mint mauth].

(** What a helper that submits [ix] leaves in a trace: the one
    submission; on a rejection two lines on the error stream, headed by
    [failure], and the node's error rethrown. *)
Definition Submits (ix : Instruction) (failure : string)
    (t : list Event) (o : JsError + unit) : Prop :=
  ∃ v, submissions t = [(ix, v)] ∧ infos t = [] ∧ fetches t = []
       ∧ o = of_verdict v
       ∧ on_stderr t = match v with
                       | inl _ => [Text failure; Text "   ${error.message}"]
                       | inr _ => []
                       end.

(** The migration of step 4 ([Close], then [Initialize]) hides the
    cause of its failure; this tells whether a submission was made by
    it. *)
Definition in_migration (obs : ObservedState) (ix : Instruction) : bool :=
  match obs with
  | Incompatible => negb (is_mint_initialization ix)
  | _ => false
  end.

(** The plans a run can carry out for the config record, and for the
    mint after it. *)
Definition primary_plans (D : ConfigParams) : list (list Action) :=
  [[]; [Initialize]; [Close]; [Close; Initialize]; [Update (sent_delta D)]].

Definition dependent_plans : list (list Action) :=
  [[]; [InitializeDependent]].

(** The pace of a run: a wait lasts 2000 ms and stands between a
    confirmed [Close] and the [Initialize] that follows it, and every
    confirmed [Close] is followed by such a wait. *)
Definition Paced (l : list Beat) : Prop :=
  (∀ before ms after, l = before ++ Waited ms :: after →
     ms = 2000
     ∧ (∃ accs, before = [Submitted (IxCloseProtocolConfig accs) true])
     ∧ ∃ args accs ok rest,
         after = Submitted (IxInitializeProtocolConfig args accs) ok :: rest)
  ∧ (∀ before accs after,
       l = before ++ Submitted (IxCloseProtocolConfig accs) true :: after →
       ∃ rest, after = Waited 2000 :: rest).

(** A machine for the set-up alone: the IDL path holds a file that parses
    to [file], or no file at all, and no RPC node can be reached. *)
Definition unreachable : JsError :=
  {| err_name := "FetchError"; err_message := "connect ECONNREFUSED" |}.

Definition bench_answer (file : option Idl) (R : Type) (c : Call R)
  : JsError + R :=
  match c in Call R return JsError + R with
  | AnchorProvider_env =>
      inr {| wallet_publicKey := WALLET; rpcEndpoint := "http://localhost:8899" |}
  | fs_existsSync _ => inr (not_null file)
  | fs_readFileSync _ =>
      match file with
      | Some _ => inr "{}"
      | None => inl (Error "ENOENT: no such file or directory")
      end
  | JSON_parse _ =>
      match file with
      | Some idl => inr idl
      | None => inl (Error "Unexpected end of JSON input")
      end
  | new_PublicKey value =>
      match value ≫= PublicKeyOps.of_base58 with
      | Some key => inr key
      | None => inl (Error "Invalid public key input")
      end
  | new_Program _ _ => inr tt
  | findProgramAddressSync seeds _ => inr (Ledger.pda seeds, 255)
  | connection_getAccountInfo _ => inl unreachable
  | protocolConfig_fetch _ => inl unreachable
  | methods_rpc _ => inl unreachable
  end.

Definition bench (file : option Idl) : Env :=
  {| World := unit; respond := λ R c w, (bench_answer file R c, w) |}.

(** What steps 4 to 6 leave in a trace, beyond the contracts of the
    steps: no set-up call, the pace above, nothing on the error stream
    unless they throw, and an announcement for each confirmation. *)
Definition StepsLeave (D : ConfigParams) (authority pda mint mauth : PublicKey)
    (t : list Event) (o : JsError + unit) : Prop :=
  StepsRun D authority pda mint mauth t o
  ∧ setup_calls t = []
  ∧ Paced (timeline t)
  ∧ (o = inr tt → on_stderr t = [])
  ∧ announcements t
    = (Succeeded <$> confirmations t)
      ++ match o with inr _ => [Ready] | inl _ => [] end.

(* ===================================================================== *)
(** * The migration and the vault set-up *)
(* ===================================================================== *)

(** [migrations/deploy.ts] and the [setupVaults] script take their
    program from the Anchor workspace and pass values, not templates, to
    the console; they are embedded over the calls they make. *)
Module Workspace.

(** The six arguments the migration passes to
    [initializeProtocolConfig]: it has no oracle authority. *)
Record DeployArgs := {
  d_baseRatePerMb : N;
  d_protocolFeeBps : N;
  d_tierThresholds : list N;
  d_tierMultipliers : list N;
  d_tokensPer5gb : N;
  d_geoPremiums : list GeoPremium
}.

(** [workspace_ArkhamProtocol] is the read of
    [anchor.workspace.ArkhamProtocol], which loads the program and can
    throw; what the scripts use of it is [program.programId]. *)
Inductive Call : Type → Type :=
| AnchorProvider_env : Call Provider
| workspace_ArkhamProtocol : Call PublicKey
| findProgramAddressSync (seeds : list string) (programId : PublicKey)
    : Call (PublicKey * N)
| initializeProtocolConfig_rpc (args : DeployArgs) (accs : InitializeAccounts)
    : Call TxSig.

(** An argument of [console.log] or [console.error]. *)
Inductive Arg :=
| Str (s : string)
| Key (k : PublicKey)
| Sig (tx : TxSig)
| Err (e : JsError).

Inductive Prog (A : Type) : Type :=
| Ret (a : A)
| Throw (e : JsError)
| Print (s : Stream) (args : list Arg) (k : Prog A)
| Do {R : Type} (c : Call R) (k : JsError + R → Prog A).

Arguments Ret {A} a.
Arguments Throw {A} e.
Arguments Print {A} s args k.
Arguments Do {A R} c k.

Fixpoint bind {A B : Type} (p : Prog A) (f : A → Prog B) : Prog B :=
  match p with
  | Ret a => f a
  | Throw e => Throw e
  | Print s args k => Print s args (bind k f)
  | Do c k => Do c (λ r, bind (k r) f)
  end.

Fixpoint try_catch {A : Type} (p : Prog A) (h : JsError → Prog A) : Prog A :=
  match p with
  | Ret a => Ret a
  | Throw e => h e
  | Print s args k => Print s args (try_catch k h)
  | Do c k => Do c (λ r, try_catch (k r) h)
  end.

Definition call {R : Type} (c : Call R) : Prog R :=
  Do c (λ r, match r with inl e => Throw e | inr v => Ret v end).

Definition console_log (args : list Arg) : Prog unit := Print Stdout args (Ret tt).
Definition console_error (args : list Arg) : Prog unit := Print Stderr args (Ret tt).

Declare Scope workspace_scope.
Delimit Scope workspace_scope with workspace.
Bind Scope workspace_scope with Prog.
Notation "'let*' x ':=' c 'in' k" := (bind c (λ x, k))
  (at level 10, x pattern, c at level 100, k at level 200) : workspace_scope.
Notation "c ';;' k" := (bind c (λ _, k))
  (at level 100, k at level 200, right associativity) : workspace_scope.

Local Open Scope workspace_scope.

(** The parameters written in the migration. *)
Definition DEPLOY_ARGS : DeployArgs := {|
  d_baseRatePerMb := 1000;
  d_protocolFeeBps := 200;
  d_tierThresholds := [100000000; 500000000; 1000000000];
  d_tierMultipliers := [10000; 12000; 15000];
  d_tokensPer5gb := 500000000;
  d_geoPremiums := [ {| regionCode := 0; premiumBps := 5000 |};
                     {| regionCode := 1; premiumBps := 4000 |};
                     {| regionCode := 2; premiumBps := 2000 |} ]
|}.

(** The accounts of the migration's transaction. *)
Definition deploy_accounts (wallet protocolConfigPDA : PublicKey)
  : InitializeAccounts :=
  {| ia_protocolConfig := protocolConfigPDA;
     ia_treasury := wallet;
     ia_authority := wallet;
     ia_systemProgram := SystemProgram_programId |}.

(** [module.exports = async function (provider)] of
    [migrations/deploy.ts]. *)
Definition deploy (provider : Provider) : Prog unit :=
  (* anchor.setProvider(provider) *)
  let* programId := call workspace_ArkhamProtocol in
  let wallet := wallet_publicKey provider in
  console_log [Str "Deploying Arkham Protocol..."];;
  console_log [Str "Program ID:"; Key programId];;
  console_log [Str "Deploying from wallet:"; Key wallet];;
  try_catch
    (let* found := call (findProgramAddressSync ["protocol_config"] programId) in
     let protocolConfigPDA := found.1 in
     console_log [Str "\nInitializing Protocol Configuration..."];;
     console_log [Str "Protocol Config PDA:"; Key protocolConfigPDA];;
     let* tx := call (initializeProtocolConfig_rpc DEPLOY_ARGS
                        (deploy_accounts wallet protocolConfigPDA)) in
     console_log [Str "✅ Protocol initialized! Transaction:"; Sig tx];;
     console_log [Str "\n📊 Configuration:"];;
     console_log [Str "  - Base rate: 0.000001 SOL per MB"];;
     console_log [Str "  - Protocol fee: 2%"];;
     console_log [Str "  - Tiers: Bronze($100), Silver($500), Gold($1000)"];;
     console_log [Str "  - Geographic premiums: US(+50%), EU(+40%), Asia(+20%)"];;
     console_log [Str "\n🎯 Next steps:"];;
     console_log [Str "  1. Deploy frontend with program ID:"; Key programId];;
     console_log [Str "  2. Initialize SOL vault PDA"];;
     console_log [Str "  3. Create USDC/USDT vault token accounts"];;
     console_log [Str "  4. Set up Pyth oracle feeds"];;
     console_log [Str "  5. Initialize ARKHAM token mint"])
    (λ error,
      console_error [Str "❌ Deployment failed:"; Err error];;
      Throw error).



(** ** Runs *)

Inductive Event :=
| EvCall {R : Type} (c : Call R) (r : JsError + R)
| EvPrint (s : Stream) (args : list Arg).

Record Env := {
  World : Type;
  respond : ∀ R : Type, Call R → World → (JsError + R) * World
}.

Record Run (W A : Type) := {
  trace : list Event;
  result : JsError + A;
  final : W
}.

Arguments trace {W A} _.
Arguments result {W A} _.
Arguments final {W A} _.

Fixpoint run (env : Env) {A : Type} (p : Prog A) (w : World env)
  : Run (World env) A :=
  match p with
  | Ret a => {| trace := []; result := inr a; final := w |}
  | Throw e => {| trace := []; result := inl e; final := w |}
  | Print s args k =>
      let rest := run env k w in
      {| trace := EvPrint s args :: trace rest;
         result := result rest; final := final rest |}
  | Do c k =>
      let answer := respond env _ c w in
      let rest := run env (k answer.1) answer.2 in
      {| trace := EvCall c answer.1 :: trace rest;
         result := result rest; final := final rest |}
  end.

(** [wp p Q]: [Q] holds of the trace and the result of [p] whatever the
    environment answers. *)
Fixpoint wp {A : Type} (p : Prog A) (Q : list Event → JsError + A → Prop) : Prop :=
  match p with
  | Ret a => Q [] (inr a)
  | Throw e => Q [] (inl e)
  | Print s args k => wp k (λ tr o, Q (EvPrint s args :: tr) o)
  | Do c k => ∀ r, wp (k r) (λ tr o, Q (EvCall c r :: tr) o)
  end.

(** ** Reading a trace *)

(** The errors the environment answered with, in order. *)
Definition faults (tr : list Event) : list JsError :=
  omap (λ ev, match ev with
              | EvCall _ (inl e) => Some e
              | _ => None
              end) tr.

(** The transactions submitted, each with the node's verdict. *)
Definition submissions (tr : list Event)
  : list (DeployArgs * InitializeAccounts * (JsError + TxSig)) :=
  omap (λ ev,
    match ev with
    | EvCall c r =>
        match c in Call R
          return JsError + R
                 → option (DeployArgs * InitializeAccounts * (JsError + TxSig)) with
        | initializeProtocolConfig_rpc args accs => λ r, Some (args, accs, r)
        | _ => λ _, None
        end r
    | _ => None
    end) tr.

(** The addresses derived, each with its seeds and program id. *)
Definition derivations (tr : list Event)
  : list (list string * PublicKey * (JsError + PublicKey * N)) :=
  omap (λ ev,
    match ev with
    | EvCall c r =>
        match c in Call R
          return JsError + R
                 → option (list string * PublicKey * (JsError + PublicKey * N)) with
        | findProgramAddressSync seeds programId => λ r, Some (seeds, programId, r)
        | _ => λ _, None
        end r
    | _ => None
    end) tr.

(** The program ids the workspace gave. *)
Definition workspace_programs (tr : list Event) : list PublicKey :=
  omap (λ ev,
    match ev with
    | EvCall c r =>
        match c in Call R return JsError + R → option PublicKey with
        | workspace_ArkhamProtocol => λ r,
            match r with inr programId => Some programId | inl _ => None end
        | _ => λ _, None
        end r
    | _ => None
    end) tr.

Definition on_stdout (tr : list Event) : list (list Arg) :=
  omap (λ ev, match ev with EvPrint Stdout args => Some args | _ => None end) tr.

Definition on_stderr (tr : list Event) : list (list Arg) :=
  omap (λ ev, match ev with EvPrint Stderr args => Some args | _ => None end) tr.

End Workspace.

(* ===================================================================== *)
(** * Lemmas about runs *)
(* ===================================================================== *)

Lemma wp_run (env : Env) {A : Type} (p : Prog A)
    (Q : list Event → JsError + A → Prop) (w : World env) :
  wp p Q → Q (trace (run env p w)) (result (run env p w)).
Proof.
  revert Q w. induction p as [a|e|s m k IH|ms k IH|R c k IH]; intros Q w HQ; simpl in *.
  - exact HQ.
  - exact HQ.
  - apply (IH (λ tr o, Q (EvPrint s m :: tr) o)), HQ.
  - apply (IH (λ tr o, Q (EvSleep ms :: tr) o)), HQ.
  - apply (IH _ (λ tr o, Q (EvCall c _ :: tr) o)), HQ.
Qed.

Lemma wp_mono {A : Type} (p : Prog A) (Q Q' : list Event → JsError + A → Prop) :
  (∀ tr o, Q tr o → Q' tr o) → wp p Q → wp p Q'.
Proof.
  revert Q Q'. induction p as [a|e|s m k IH|ms k IH|R c k IH]; intros Q Q' HQ Hp; simpl in *.
  - auto.
  - auto.
  - eapply IH; [|exact Hp]. simpl; auto.
  - eapply IH; [|exact Hp]. simpl; auto.
  - intros r. eapply IH; [|exact (Hp r)]. simpl; auto.
Qed.

Lemma wp_bind {A B : Type} (p : Prog A) (f : A → Prog B)
    (Q : list Event → JsError + B → Prop) :
  wp p (λ tr o,
    match o with
    | inl e => Q tr (inl e)
    | inr a => wp (f a) (λ tr' o', Q (tr ++ tr') o')
    end) →
  wp (bind p f) Q.
Proof.
  revert Q. induction p as [a|e|s m k IH|ms k IH|R c k IH]; intros Q Hp; simpl in *.
  - exact Hp.
  - exact Hp.
  - apply IH. exact Hp.
  - apply IH. exact Hp.
  - intros r. apply IH. exact (Hp r).
Qed.

Lemma wp_try_catch {A : Type} (p : Prog A) (h : JsError → Prog A)
    (Q : list Event → JsError + A → Prop) :
  wp p (λ tr o,
    match o with
    | inr a => Q tr (inr a)
    | inl e => wp (h e) (λ tr' o', Q (tr ++ tr') o')
    end) →
  wp (try_catch p h) Q.
Proof.
  revert Q. induction p as [a|e|s m k IH|ms k IH|R c k IH]; intros Q Hp; simpl in *.
  - exact Hp.
  - exact Hp.
  - apply IH. exact Hp.
  - apply IH. exact Hp.
  - intros r. apply IH. exact (Hp r).
Qed.

Lemma run_bind (env : Env) {A B : Type} (p : Prog A) (f : A → Prog B)
    (w : World env) :
  run env (bind p f) w =
    let first := run env p w in
    match result first with
    | inl e => {| trace := trace first; result := inl e; final := final first |}
    | inr a =>
        let rest := run env (f a) (final first) in
        {| trace := trace first ++ trace rest;
           result := result rest; final := final rest |}
    end.
Proof.
  revert w. induction p as [a|e|s m k IH|ms k IH|R c k IH]; intros w; simpl.
  - destruct (run env (f a) w); reflexivity.
  - reflexivity.
  - rewrite IH. cbn. destruct (result (run env k w)); reflexivity.
  - rewrite IH. cbn. destruct (result (run env k w)); reflexivity.
  - rewrite IH. cbn. destruct (result (run env (k _) _)); reflexivity.
Qed.

Lemma run_try_catch (env : Env) {A : Type} (p : Prog A) (h : JsError → Prog A)
    (w : World env) :
  run env (try_catch p h) w =
    let first := run env p w in
    match result first with
    | inr a => {| trace := trace first; result := inr a; final := final first |}
    | inl e =>
        let rest := run env (h e) (final first) in
        {| trace := trace first ++ trace rest;
           result := result rest; final := final rest |}
    end.
Proof.
  revert w. induction p as [a|e|s m k IH|ms k IH|R c k IH]; intros w; simpl.
  - reflexivity.
  - destruct (run env (h e) w); reflexivity.
  - rewrite IH. cbn. destruct (result (run env k w)); reflexivity.
  - rewrite IH. cbn. destruct (result (run env k w)); reflexivity.
  - rewrite IH. cbn. destruct (result (run env (k _) _)); reflexivity.
Qed.

Lemma run_steps (env : Env) (D : ConfigParams)
    (authority pda mint mauth : PublicKey) (w : World env) :
  let r4 := run env (main_step4 D authority pda) w in
  let r5 := run env (main_step5 authority pda mint mauth) (final r4) in
  let r6 := run env (main_step6 pda) (final r5) in
  run env (steps D authority pda mint mauth) w =
    match result r4 with
    | inl err => {| trace := trace r4; result := inl err; final := final r4 |}
    | inr _ =>
        match result r5 with
        | inl err =>
            {| trace := trace r4 ++ trace r5; result := inl err; final := final r5 |}
        | inr _ =>
            {| trace := trace r4 ++ trace r5 ++ trace r6;
               result := result r6; final := final r6 |}
        end
    end.
Proof.
  intros r4 r5 r6. unfold steps. rewrite run_bind. fold r4. cbv zeta.
  destruct (result r4) as [err|[]]; [done|].
  rewrite run_bind. fold r5. cbv zeta.
  destruct (result r5) as [err|[]]; [done|]. done.
Qed.

(** The exit code is decided by whether [main] threw. *)
Lemma script_exit (env : Env) (D : ConfigParams) (p : string) (w : World env) :
  let m := run env (main D p) w in
  let r := run env (script D p) w in
  final r = final m ∧
  match result m with
  | inl e => result r = inr 1 ∧ trace r = trace m ++ epilogue e
  | inr _ => result r = inr 0 ∧ trace r = trace m
  end.
Proof.
  intros m r. subst r. unfold script. rewrite run_try_catch, run_bind.
  fold m. clearbody m. destruct m as [t [e|[]] w']; cbn; [done|].
  by rewrite app_nil_r.
Qed.

(** ** Reading a concatenated trace *)

Lemma submissions_app (a b : list Event) :
  submissions (a ++ b) = submissions a ++ submissions b.
Proof. apply omap_app. Qed.

Lemma fetches_app (a b : list Event) : fetches (a ++ b) = fetches a ++ fetches b.
Proof. apply omap_app. Qed.

Lemma infos_app (a b : list Event) : infos (a ++ b) = infos a ++ infos b.
Proof. apply omap_app. Qed.

Lemma on_stderr_app (a b : list Event) :
  on_stderr (a ++ b) = on_stderr a ++ on_stderr b.
Proof. apply omap_app. Qed.

Lemma on_stdout_app (a b : list Event) :
  on_stdout (a ++ b) = on_stdout a ++ on_stdout b.
Proof. apply omap_app. Qed.

Lemma on_stderr_epilogue (t : list Event) (e : JsError) :
  on_stderr (t ++ epilogue e)
  = on_stderr t ++ [Text "\n❌ Script failed with error:"; ErrorValue e].
Proof. by rewrite on_stderr_app. Qed.

Lemma last_two {A : Type} (l : list A) (x y : A) : last (l ++ [x; y]) = Some y.
Proof. induction l as [|a [|b l] IH]; auto. Qed.

(** ** The two tests of [main] *)

Lemma spec_matches_oracle (D : ConfigParams) (c : ProtocolConfig) :
  spec_matches D c = true → pc_oracleAuthority c = Some (oracleAuthority D).
Proof.
  unfold spec_matches. intros H%bool_decide_eq_true.
  apply (f_equal u_oracleAuthority) in H. cbn in H.
  unfold changed in H. by case_decide.
Qed.

Lemma needsOracleUpdate_false (D : ConfigParams) (c : ProtocolConfig) :
  pc_oracleAuthority c = Some (oracleAuthority D) →
  oracleAuthority D ≠ PublicKeyOps.default →
  needsOracleUpdate D c = false.
Proof.
  intros Hc Hd. unfold needsOracleUpdate, PublicKeyOps.equals. rewrite Hc.
  rewrite N.eqb_refl. cbn. rewrite orb_false_r. by apply N.eqb_neq.
Qed.

Lemma needsOracleUpdate_false_inv (D : ConfigParams) (c : ProtocolConfig) :
  needsOracleUpdate D c = false →
  pc_oracleAuthority c = Some (oracleAuthority D).
Proof.
  unfold needsOracleUpdate, PublicKeyOps.equals.
  destruct (pc_oracleAuthority c) as [key|]; [|discriminate].
  intros [_ H]%orb_false_iff. apply negb_false_iff, N.eqb_eq in H. by subst.
Qed.

(* ===================================================================== *)
(** * Tactics *)
(* ===================================================================== *)

Ltac unfold_script :=
  unfold script, main, main_step4, main_step5, main_step6, loadIdl,
    idl_address_or_metadata, getProtocolConfigPda,
    getArkhamMintPda, getMintAuthorityPda, accountExists,
    fetchProtocolConfig, getAccountInfo, initializeProtocolConfig,
    updateProtocolConfig, closeProtocolConfig, initializeArkhamMint,
    console_log, console_error, console_error_value, setTimeout_await, call.

(** One step of a run against any environment: take its next answer, or
    split on the value the program branches on. *)
Ltac exec_step :=
  lazymatch goal with
  | |- ∀ r : _ + _, _ => intros [?|?]
  | |- wp ?p _ =>
      match p with
      | context [match ?x with _ => _ end] => destruct x eqn:?
      | context [if ?x then _ else _] => destruct x eqn:?
      end
  end; cbn.

Ltac exec := unfold_script; cbn; repeat exec_step.

(** The same, leaving steps 4 to 6 of [main] folded. *)
Ltac exec_setup_step :=
  lazymatch goal with
  | |- ∀ r : _ + _, _ => intros [?|?]
  | |- wp ?p _ =>
      match p with
      | context [match ?x with _ => _ end] => destruct x eqn:?
      | context [if ?x then _ else _] => destruct x eqn:?
      end
  end; cbn -[main_step4 main_step5 main_step6].

(** Apply [wp_run] to a goal about [trace] and [result] of one run. *)
Ltac by_wp env p w :=
  let r := constr:(run env p w) in
  lazymatch goal with
  | |- ?G =>
      let Q := eval pattern (trace r), (result r) in G in
      lazymatch Q with
      | ?Q' _ _ => apply (wp_run env p Q' w)
      end
  end.

(** The events consed in front of [t] in [l]. *)
Ltac prefix_of l t :=
  lazymatch l with
  | t => constr:(@nil Event)
  | ?x :: ?l' => let r := prefix_of l' t in constr:(x :: r)
  end.

(** The events consed in front of whatever [l] ends with. *)
Ltac conses l :=
  lazymatch l with
  | ?x :: ?l' => let r := conses l' in constr:(x :: r)
  | _ => constr:(@nil Event)
  end.

(** Enumerate the shapes of a script run. *)
Ltac shapes H :=
  inversion H; subst; clear H;
  repeat match goal with
  | Hm : MainRun _ _ _ |- _ => inversion Hm; subst; clear Hm
  | Hs : StepsRun _ _ _ _ _ _ _ |- _ => inversion Hs; subst; clear Hs
  end.

(** Split the step contracts into their cases. *)
Ltac open_contracts :=
  unfold Step4, Step5, Step6, observed in *;
  repeat match goal with
  | H : ∃ _, _ |- _ => destruct H as [? H]
  | H : _ ∧ _ |- _ => destruct H as [? ?]
  | H : _ ∨ _ |- _ => destruct H as [H|H]
  | H : match ?x with _ => _ end |- _ => destruct x eqn:?; cbn in H
  | H : (if ?b then _ else _) |- _ => destruct b eqn:?; cbn in H
  end;
  repeat match goal with
  | v : (JsError + TxSig)%type |- _ => destruct v
  end;
  cbn in *; simplify_eq.

(** Evaluate the trace readers in the goal on a run whose shape is known. *)
Ltac observe :=
  repeat match goal with
  | H : Quiet _ |- _ => destruct H as (? & ? & ? & ?)
  end;
  unfold observed_in, probe_account, probe_config, nth_fetch, plan, submitted,
    all_confirmed;
  rewrite ?submissions_app, ?fetches_app, ?infos_app, ?on_stderr_app, ?on_stdout_app;
  repeat match goal with
  | H : infos _ = _ |- _ => rewrite ?H; clear H
  | H : fetches _ = _ |- _ => rewrite ?H; clear H
  | H : submissions _ = _ |- _ => rewrite ?H; clear H
  | H : on_stderr _ = _ |- _ => rewrite ?H; clear H
  end;
  cbn.

(** Solve [l = before ++ x :: after] for a short explicit [l]. *)
Ltac split_list before :=
  destruct before as [|? [|? [|? [|? ?]]]]; simplify_eq/=.

(** Runs against the ledger: unfold its semantics, then split on the
    fault schedule, the account store and the program's own tests. *)
Ltac ledger_simpl :=
  repeat (progress (
    cbn -[lookup insert delete Ledger.CONFIG_PDA Ledger.MINT_PDA];
    unfold Ledger.over_network, Ledger.transport, Ledger.fetch, Ledger.submit,
      Ledger.initialize, Ledger.update, Ledger.close, Ledger.initialize_mint,
      Ledger.set_accounts)).

Ltac ledger_step :=
  match goal with
  | |- context [<[?k:=_]> _ !! ?k] => rewrite lookup_insert_eq
  | |- context [delete ?k _ !! ?k] => rewrite lookup_delete_eq
  | |- context [<[Ledger.CONFIG_PDA:=_]> _ !! Ledger.MINT_PDA] =>
      rewrite (lookup_insert_ne _ Ledger.CONFIG_PDA Ledger.MINT_PDA) by discriminate
  | |- context [<[Ledger.MINT_PDA:=_]> _ !! Ledger.CONFIG_PDA] =>
      rewrite (lookup_insert_ne _ Ledger.MINT_PDA Ledger.CONFIG_PDA) by discriminate
  | |- context [delete Ledger.CONFIG_PDA _ !! Ledger.MINT_PDA] =>
      rewrite (lookup_delete_ne _ Ledger.CONFIG_PDA Ledger.MINT_PDA) by discriminate
  | H : ?x = _ |- context [match ?x with _ => _ end] => rewrite H
  | |- context [match ?x with _ => _ end] => is_var x; destruct x
  | |- context [if ?x then _ else _] => is_var x; destruct x
  | |- context [match ?m !! ?k with _ => _ end] => is_var m; destruct (m !! k) eqn:?
  | |- context [_ <$> ?m !! ?k] => is_var m; destruct (m !! k) eqn:?
  | |- context [if PublicKeyOps.equals ?a ?b then _ else _] =>
      destruct (PublicKeyOps.equals a b) eqn:?
  | |- context [if needsOracleUpdate ?D ?c then _ else _] =>
      destruct (needsOracleUpdate D c) eqn:?
  | |- context [if mintIsInitialized ?c then _ else _] =>
      destruct (mintIsInitialized c) eqn:?
  | |- context [match ?x with _ => _ end] => destruct x eqn:?
  | |- context [if ?x then _ else _] => destruct x eqn:?
  end; ledger_simpl.

Ltac ledger_exec :=
  unfold_script;
  unfold methods_initializeProtocolConfig, methods_updateProtocolConfig,
    methods_closeProtocolConfig, methods_initializeArkhamMint;
  ledger_simpl; repeat ledger_step.

(* ===================================================================== *)
(** * The shape of every run *)
(* ===================================================================== *)

Lemma step4_contract (D : ConfigParams) (authority pda : PublicKey) :
  wp (main_step4 D authority pda) (Step4 D authority pda).
Proof.
  exec; unfold Step4; do 2 eexists; (split; [reflexivity|]); (split; [reflexivity|]);
    unfold observed; cbn;
    repeat match goal with H : _ = _ |- _ => rewrite H end; cbn; eauto 8.
Qed.

Lemma step5_contract (authority pda mint mauth : PublicKey) :
  wp (main_step5 authority pda mint mauth) (Step5 authority pda mint mauth).
Proof.
  exec; unfold Step5; eexists; (split; [reflexivity|]); cbn;
    repeat match goal with H : _ = _ |- _ => rewrite H end; cbn; eauto 8.
  all: eexists; (split; [reflexivity|]); cbn;
    repeat match goal with H : _ = _ |- _ => rewrite H end; cbn; eauto 8.
  repeat split; try done. unfold mint_warnings.
  intros m Hm. rewrite !elem_of_cons in *. tauto.
Qed.

Lemma step6_contract (pda : PublicKey) : wp (main_step6 pda) (Step6 pda).
Proof.
  exec; unfold Step6; eexists; repeat (split; [reflexivity|]); cbn;
    repeat match goal with H : _ = _ |- _ => rewrite H end; eauto.
Qed.

Lemma steps_shape (D : ConfigParams) (authority pda mint mauth : PublicKey) :
  wp (steps D authority pda mint mauth) (StepsRun D authority pda mint mauth).
Proof.
  unfold steps.
  apply wp_bind. eapply wp_mono; [|apply step4_contract].
  intros t4 [e|[]] H4; [by constructor|].
  apply wp_bind. eapply wp_mono; [|apply step5_contract].
  intros t5 [e|[]] H5; [by constructor|].
  eapply wp_mono; [|apply step6_contract].
  intros t6 o H6. by constructor.
Qed.

Lemma main_shape (D : ConfigParams) (p : string) : wp (main D p) (MainRun D).
Proof.
  unfold main, loadIdl, idl_address_or_metadata,
    getProtocolConfigPda, getArkhamMintPda, getMintAuthorityPda,
    console_log, call.
  cbn -[main_step4 main_step5 main_step6].
  repeat exec_setup_step.
  all: try (apply setup_failed; by repeat split).
  all: (eapply wp_mono; [|apply steps_shape]); intros t o Ht;
    match goal with |- MainRun _ ?l _ =>
      let pre := prefix_of l t in change l with (pre ++ t)
    end;
    (eapply steps_ran; [by repeat split| |exact Ht]); cbn; reflexivity.
Qed.

Lemma script_shape (env : Env) (D : ConfigParams) (p : string) (w : World env) :
  ∃ code, result (run env (script D p) w) = inr code
          ∧ ScriptRun D (trace (run env (script D p) w)) code.
Proof.
  by_wp env (script D p) w.
  unfold script. apply wp_try_catch, wp_bind.
  eapply wp_mono; [|apply main_shape].
  intros t [e|[]] Ht; cbn.
  - exists 1. split; [done|]. by apply main_threw.
  - exists 0. split; [done|]. rewrite app_nil_r. by apply main_returned.
Qed.

(* ===================================================================== *)
(** * Runs against the ledger *)
(* ===================================================================== *)

Lemma program_id_decodes : PublicKeyOps.of_base58 Ledger.PROGRAM_ID = Some 1.
Proof. vm_compute. reflexivity. Qed.

(** On the ledger the set-up always succeeds and derives the three model
    addresses. *)
Lemma ledger_main (D : ConfigParams) (p : string) (w : Ledger.State) :
  ∃ pre, Quiet pre ∧
    run Ledger.env (main D p) w
    = prepend pre
        (run Ledger.env
           (steps D (Ledger.wallet w) Ledger.CONFIG_PDA Ledger.MINT_PDA
              Ledger.MINT_AUTHORITY_PDA) w).
Proof.
  unfold main, loadIdl, idl_address_or_metadata,
    getProtocolConfigPda, getArkhamMintPda, getMintAuthorityPda,
    console_log, call.
  cbn -[main_step4 main_step5 main_step6 PublicKeyOps.of_base58].
  change (PublicKeyOps.of_base58 _) with (PublicKeyOps.of_base58 Ledger.PROGRAM_ID).
  rewrite program_id_decodes.
  cbn -[main_step4 main_step5 main_step6].
  lazymatch goal with
  | |- ∃ pre, _ ∧ {| trace := ?l; result := _; final := _ |} = _ =>
      let pre := conses l in exists pre
  end.
  split; [by repeat split|reflexivity].
Qed.

Lemma ledger_step4 (D : ConfigParams) (authority : PublicKey) (w : Ledger.State) :
  let r := run Ledger.env (main_step4 D authority Ledger.CONFIG_PDA) w in
  result r = inr tt → Reconciled D (final r).
Proof.
  destruct w as [accts wal fs]. unfold Reconciled.
  ledger_exec.
  all: try discriminate.
  all: intros _; eexists; (split; [first [reflexivity|eassumption]|]).
  all: first [reflexivity | by apply needsOracleUpdate_false_inv].
Qed.

Lemma ledger_step5 (D : ConfigParams) (authority mauth : PublicKey)
    (w : Ledger.State) :
  Reconciled D w →
  let r := run Ledger.env
             (main_step5 authority Ledger.CONFIG_PDA Ledger.MINT_PDA mauth) w in
  result r = inr tt → Settled D (final r).
Proof.
  destruct w as [accts wal fs]. unfold Reconciled, Settled.
  intros (c & Hc & Ho). cbn in Hc.
  ledger_exec.
  all: try discriminate.
  all: intros _; eexists; (split; [first [eassumption|reflexivity]|]);
    (split; [exact Ho|]).
  all: first
    [ left; assumption
    | left; reflexivity
    | right;
      match goal with H : _ !! Ledger.MINT_PDA = Some _ |- _ => rewrite H end; eauto
    | right; eauto ].
Qed.

Lemma ledger_step6 (w : Ledger.State) :
  Ledger.accounts (final (run Ledger.env (main_step6 Ledger.CONFIG_PDA) w))
  = Ledger.accounts w.
Proof.
  destruct w as [accts wal fs].
  ledger_exec; reflexivity.
Qed.

Lemma settled_step4 (D : ConfigParams) (authority : PublicKey) (w : Ledger.State) :
  oracleAuthority D ≠ PublicKeyOps.default →
  Settled D w → Ledger.faults w = [] →
  let r := run Ledger.env (main_step4 D authority Ledger.CONFIG_PDA) w in
  submissions (trace r) = [] ∧ result r = inr tt ∧ final r = w.
Proof.
  intros HD (c & Hc & Ho & _) Hf. destruct w as [accts wal fs].
  cbn in Hc, Hf. subst fs.
  pose proof (needsOracleUpdate_false D c Ho HD) as Hn.
  unfold_script. ledger_simpl. rewrite Hc. ledger_simpl. rewrite Hn. done.
Qed.

Lemma settled_step5 (D : ConfigParams) (authority mauth : PublicKey)
    (w : Ledger.State) :
  Settled D w → Ledger.faults w = [] →
  let r := run Ledger.env
             (main_step5 authority Ledger.CONFIG_PDA Ledger.MINT_PDA mauth) w in
  submissions (trace r) = [] ∧ result r = inr tt ∧ final r = w.
Proof.
  intros (c & Hc & _ & Hm) Hf. destruct w as [accts wal fs].
  cbn in Hc, Hm, Hf. subst fs.
  unfold_script. ledger_simpl. rewrite Hc. ledger_simpl.
  destruct (mintIsInitialized c) eqn:Hi; ledger_simpl; [done|].
  destruct Hm as [|[a Ha]]; [done|]. rewrite Ha. done.
Qed.

Lemma settled_step6 (w : Ledger.State) :
  Ledger.faults w = [] →
  let r := run Ledger.env (main_step6 Ledger.CONFIG_PDA) w in
  submissions (trace r) = [] ∧ final r = w.
Proof.
  intros Hf. destruct w as [accts wal fs]. cbn in Hf. subst fs.
  ledger_exec; done.
Qed.

Lemma settled_accounts (D : ConfigParams) (w w' : Ledger.State) :
  Ledger.accounts w' = Ledger.accounts w → Settled D w → Settled D w'.
Proof. unfold Settled. by intros ->. Qed.

(** A completed run leaves the ledger settled. *)
Lemma ledger_completed (D : ConfigParams) (p : string) (w : Ledger.State) :
  result (run Ledger.env (script D p) w) = inr 0 →
  Settled D (final (run Ledger.env (script D p) w)).
Proof.
  intros Hres.
  destruct (script_exit Ledger.env D p w) as [Hfin Hexit]. cbv zeta in Hfin, Hexit.
  rewrite Hfin.
  destruct (ledger_main D p w) as (pre & _ & Hmain).
  rewrite Hmain in *. unfold prepend in *. cbn [trace result final] in *.
  rewrite run_steps in *. cbv zeta in *.
  set (r4 := run Ledger.env (main_step4 D (Ledger.wallet w) Ledger.CONFIG_PDA) w) in *.
  set (r5 := run Ledger.env
               (main_step5 (Ledger.wallet w) Ledger.CONFIG_PDA Ledger.MINT_PDA
                  Ledger.MINT_AUTHORITY_PDA) (final r4)) in *.
  set (r6 := run Ledger.env (main_step6 Ledger.CONFIG_PDA) (final r5)) in *.
  pose proof (ledger_step4 D (Ledger.wallet w) w) as H4.
  pose proof (ledger_step5 D (Ledger.wallet w) Ledger.MINT_AUTHORITY_PDA (final r4)) as H5.
  pose proof (ledger_step6 (final r5)) as H6.
  cbv zeta in H4, H5. fold r4 in H4, H5. fold r5 in H5, H6. fold r6 in H6.
  clearbody r6. clearbody r5. clearbody r4.
  destruct (result r4) as [err|[]]; cbn [trace result final] in *.
  { rewrite Hres in Hexit. by destruct Hexit. }
  destruct (result r5) as [err|[]]; cbn [trace result final] in *.
  { rewrite Hres in Hexit. by destruct Hexit. }
  exact (settled_accounts D (final r5) (final r6) H6 (H5 (H4 eq_refl) eq_refl)).
Qed.

(** A run on a settled ledger over a healthy connection submits nothing. *)
Lemma ledger_settled_run (D : ConfigParams) (p : string) (w : Ledger.State) :
  oracleAuthority D ≠ PublicKeyOps.default →
  Settled D w → Ledger.faults w = [] →
  submissions (trace (run Ledger.env (script D p) w)) = [].
Proof.
  intros HD Hs Hf.
  destruct (script_exit Ledger.env D p w) as [_ Hexit]. cbv zeta in Hexit.
  destruct (ledger_main D p w) as (pre & (_ & _ & Hpre & _) & Hmain).
  rewrite Hmain in Hexit. unfold prepend in Hexit.
  cbn [trace result final] in Hexit.
  assert (submissions
            (trace (run Ledger.env
               (steps D (Ledger.wallet w) Ledger.CONFIG_PDA Ledger.MINT_PDA
                  Ledger.MINT_AUTHORITY_PDA) w))
          = []) as Hsteps.
  { rewrite run_steps. cbv zeta.
    destruct (settled_step4 D (Ledger.wallet w) w HD Hs Hf) as (S4 & R4 & F4).
    rewrite R4, F4.
    destruct (settled_step5 D (Ledger.wallet w) Ledger.MINT_AUTHORITY_PDA w Hs Hf)
      as (S5 & R5 & F5).
    rewrite R5, F5.
    destruct (settled_step6 w Hf) as (S6 & F6).
    cbn [trace result final]. by rewrite !submissions_app, S4, S5, S6. }
  destruct (result (run Ledger.env
              (steps D (Ledger.wallet w) Ledger.CONFIG_PDA Ledger.MINT_PDA
                 Ledger.MINT_AUTHORITY_PDA) w))
    as [err|[]]; destruct Hexit as [_ ->];
    rewrite ?submissions_app, Hpre, Hsteps; done.
Qed.

(* ===================================================================== *)
(** * The end-to-end scenarios *)
(* ===================================================================== *)

(** Scenario A: nothing provisioned; the run initialises the config
    record, then the mint, and exits with code 0. *)
Example scenario_A :
  let r := run Ledger.env (script CONFIG_PARAMS_literal IDL_PATH) ledger_empty in
  plan (trace r) = [Initialize; InitializeDependent]
  ∧ all_confirmed (trace r) = true
  ∧ result r = inr 0
  ∧ Ledger.accounts (final r) !! Ledger.CONFIG_PDA
      = Some (Ledger.ConfigAccount
                (config_of CONFIG_PARAMS_literal WALLET Ledger.MINT_PDA))
  ∧ Ledger.accounts (final r) !! Ledger.MINT_PDA = Some Ledger.MintAccount.
Proof. vm_compute. repeat split; reflexivity. Qed.

(** Scenario C: undecodable bytes owned by somebody else; [Close] is
    rejected and the run stops there with exit code 1. *)
Example scenario_C :
  let r := run Ledger.env (script CONFIG_PARAMS_literal IDL_PATH) (ledger_foreign 5) in
  plan (trace r) = [Close]
  ∧ all_confirmed (trace r) = false
  ∧ last (on_stderr (trace r)) = Some (ErrorValue cannot_proceed)
  ∧ result r = inr 1.
Proof. vm_compute. repeat split; reflexivity. Qed.

(** Undecodable bytes owned by the wallet: the migration goes through. *)
Example scenario_migration :
  let r := run Ledger.env (script CONFIG_PARAMS_literal IDL_PATH) (ledger_foreign WALLET) in
  plan (trace r) = [Close; Initialize; InitializeDependent]
  ∧ result r = inr 0.
Proof. vm_compute. repeat split; reflexivity. Qed.

(** The constants of the script decode as 32-byte keys, and the oracle
    authority is not the null identity. *)
Example constants_decode :
  PublicKeyOps.of_base58 "9WE7mxzUNFGJ4df3kuALhAWLmBmFkYvTt8LkMDFVuycC"
    = Some ORACLE_AUTHORITY
  ∧ PublicKeyOps.of_base58 "TokenkegQfeZyiNwAJbNbGKPFXCWuBvf9Ss623VQ5DA"
      = Some TOKEN_PROGRAM_ID
  ∧ PublicKeyOps.of_base58 "11111111111111111111111111111111"
      = Some PublicKeyOps.default
  ∧ ORACLE_AUTHORITY ≠ PublicKeyOps.default.
Proof. vm_compute. repeat split; try reflexivity. discriminate. Qed.

(* ===================================================================== *)
(** * The claims *)
(* ===================================================================== *)

(** ** C1: the decision table *)

(** C1 (as amended).  Step 4 of [main], in any environment and for any
    [CONFIG_PARAMS], when every submission is confirmed, carries out this
    plan: observed Absent, [Initialize]; observed Incompatible,
    [Close; Initialize]; observed Compatible with an oracle authority that
    is present, not the null identity and equal to the desired one, the
    empty plan (no other field is compared); any other Compatible state,
    one [Update] whose delta sets every field of [CONFIG_PARAMS] and leaves
    only the reputation updater unchanged. *)
Theorem C1_step4_decision_table (env : Env) (D : ConfigParams)
    (authority pda : PublicKey) (w : World env) :
  let r := run env (main_step4 D authority pda) w in
  all_confirmed (trace r) = true →
  plan (trace r) =
    match observed_in (trace r) with
    | Absent => [Initialize]
    | Incompatible => [Close; Initialize]
    | Compatible c =>
        if needsOracleUpdate D c then [Update (sent_delta D)] else []
    end.
Proof.
  intros r; subst r. by_wp env (main_step4 D authority pda) w.
  exec; try done.
  all: intros _; unfold observed_in, observed, probe_account, probe_config; cbn;
    repeat match goal with H : _ = _ |- _ => rewrite H end; try done.
Qed.

Lemma C1_step4_decision_table_witness :
  all_confirmed
    (trace (run Ledger.env
       (main_step4 CONFIG_PARAMS_literal WALLET Ledger.CONFIG_PDA) ledger_empty))
  = true
  ∧ plan
      (trace (run Ledger.env
         (main_step4 CONFIG_PARAMS_literal WALLET Ledger.CONFIG_PDA) ledger_empty))
    = [Initialize].
Proof.
  split; [vm_compute; reflexivity|].
  apply (C1_step4_decision_table Ledger.env CONFIG_PARAMS_literal WALLET
           Ledger.CONFIG_PDA ledger_empty).
  vm_compute; reflexivity.
Defined.

(** C1 as the specification states it fails: on a config record that
    differs from the desired parameters in the fee only, the table of
    section 4.3 asks for [Update {fee}], and step 4 submits nothing. *)
Lemma C1_counterexample :
  let D := CONFIG_PARAMS_literal in
  let r := run Ledger.env (main_step4 D WALLET Ledger.CONFIG_PDA) ledger_fee100 in
  all_confirmed (trace r) = true
  ∧ observed_in (trace r)
      = Compatible (config_of (with_fee D 100) WALLET Ledger.MINT_PDA)
  ∧ plan (trace r) = []
  ∧ spec_reconcile D (observed_in (trace r))
      = [Update {| u_baseRatePerMb := None; u_protocolFeeBps := Some 200;
                   u_tierThresholds := None; u_tierMultipliers := None;
                   u_tokensPer5gb := None; u_geoPremiums := None;
                   u_reputationUpdater := None; u_oracleAuthority := None |}]
  ∧ plan (trace r) ≠ spec_reconcile D (observed_in (trace r)).
Proof.
  vm_compute. repeat split; try reflexivity. discriminate.
Qed.

(** ** C2: the delta of an update *)

(** C2 (as amended).  Let two parameter sets differ in the fee only and
    let step 4 run for the second one.  Whenever it submits an [Update],
    the delta sets every field of [CONFIG_PARAMS] to its desired value and
    leaves only the reputation updater unchanged; and when the observed
    record equals the first set and the oracle authority is not the null
    identity, it submits no [Update] at all: the fee is never compared. *)
Theorem C2_update_delta (env : Env) (D1 : ConfigParams) (fee : N)
    (authority pda : PublicKey) (w : World env) :
  let D2 := with_fee D1 fee in
  let r := run env (main_step4 D2 authority pda) w in
  (∀ delta, Update delta ∈ plan (trace r) → delta = sent_delta D2)
  ∧ (∀ c, observed_in (trace r) = Compatible c →
          spec_matches D1 c = true →
          oracleAuthority D1 ≠ PublicKeyOps.default →
          plan (trace r) = []).
Proof.
  intros D2 r. subst r. by_wp env (main_step4 D2 authority pda) w.
  exec.
  all: unfold observed_in, observed, probe_account, probe_config, plan; cbn;
    repeat match goal with H : _ = _ |- _ => rewrite H end; cbn.
  all: split;
    [ intros delta Hin; rewrite ?elem_of_cons, ?elem_of_nil in Hin;
      try (exfalso; intuition congruence)
    | intros c Hobs Hm Hd; simplify_eq/=; try done ].
  all: try (destruct Hin as [Hin|[]]; injection Hin as ->; reflexivity).
  all: pose proof (spec_matches_oracle _ _ Hm) as Ho;
    rewrite (needsOracleUpdate_false D2) in *; done.
Qed.

Lemma C2_update_delta_witness :
  plan
    (trace (run Ledger.env
       (main_step4 (with_fee CONFIG_PARAMS_literal 250) WALLET Ledger.CONFIG_PDA)
       (ledger_literal [])))
  = [].
Proof.
  refine (proj2 (C2_update_delta Ledger.env CONFIG_PARAMS_literal 250 WALLET
            Ledger.CONFIG_PDA (ledger_literal []))
            (config_of CONFIG_PARAMS_literal WALLET Ledger.MINT_PDA) _ _ _).
  - vm_compute; reflexivity.
  - vm_compute; reflexivity.
  - vm_compute; discriminate.
Defined.

(** C2 as the specification states it fails twice.  With the observed
    record equal to the first parameter set, raising the fee from 200 to
    250 produces no [Update]; and when an [Update] is produced (here the
    desired oracle authority is the null identity), its delta re-sends the
    unchanged base rate along with the fee. *)
Lemma C2_counterexample :
  let D1 := CONFIG_PARAMS_literal in
  let r := run Ledger.env
             (main_step4 (with_fee D1 250) WALLET Ledger.CONFIG_PDA)
             (ledger_literal []) in
  let Z1 := with_oracle CONFIG_PARAMS_literal PublicKeyOps.default in
  let z := run Ledger.env
             (main_step4 (with_fee Z1 250) WALLET Ledger.CONFIG_PDA)
             (ledger_of [(Ledger.CONFIG_PDA,
                          Ledger.ConfigAccount (config_of Z1 WALLET Ledger.MINT_PDA))]
                        []) in
  (observed_in (trace r) = Compatible (config_of D1 WALLET Ledger.MINT_PDA)
   ∧ spec_matches D1 (config_of D1 WALLET Ledger.MINT_PDA) = true
   ∧ plan (trace r) = []
   ∧ ¬ ∃ delta, plan (trace r) = [Update delta])
  ∧ (observed_in (trace z) = Compatible (config_of Z1 WALLET Ledger.MINT_PDA)
     ∧ spec_matches Z1 (config_of Z1 WALLET Ledger.MINT_PDA) = true
     ∧ ∃ delta, plan (trace z) = [Update delta]
                ∧ u_protocolFeeBps delta = Some 250
                ∧ u_baseRatePerMb delta = Some 1500).
Proof.
  vm_compute. split.
  - repeat split; try reflexivity. intros [delta H]. discriminate.
  - repeat split; try reflexivity. eexists. repeat split; reflexivity.
Qed.

(** ** C3: a second run *)

(** C3 (as amended).  On the ledger, for every [CONFIG_PARAMS] whose
    oracle authority is not the null identity and every initial state:
    when a first run of the script exits with code 0 and the connection is
    healthy afterwards, a second run started on the state the first one
    left submits no transaction, neither for the config record nor for
    the mint. *)
Theorem C3_second_run_is_idle (D : ConfigParams) (p : string) (w : Ledger.State) :
  oracleAuthority D ≠ PublicKeyOps.default →
  let first := run Ledger.env (script D p) w in
  result first = inr 0 →
  Ledger.faults (final first) = [] →
  let second := run Ledger.env (script D p) (final first) in
  submitted (trace second) = [] ∧ plan (trace second) = [].
Proof.
  intros HD first Hres Hf second.
  assert (submissions (trace second) = []) as Hs.
  { apply ledger_settled_run; [done| |done]. by apply ledger_completed. }
  unfold plan, submitted. by rewrite Hs.
Qed.

Lemma C3_second_run_is_idle_witness :
  submitted
    (trace (run Ledger.env (script CONFIG_PARAMS_literal IDL_PATH)
       (final (run Ledger.env (script CONFIG_PARAMS_literal IDL_PATH) ledger_empty))))
  = []
  ∧ plan
      (trace (run Ledger.env (script CONFIG_PARAMS_literal IDL_PATH)
         (final (run Ledger.env (script CONFIG_PARAMS_literal IDL_PATH) ledger_empty))))
    = [].
Proof.
  apply (C3_second_run_is_idle CONFIG_PARAMS_literal IDL_PATH ledger_empty).
  - vm_compute; discriminate.
  - vm_compute; reflexivity.
  - vm_compute; reflexivity.
Defined.

(** C3 as the specification states it fails.  With the null identity as
    desired oracle authority, a run that completed is followed by a run
    that submits an [Update] again; and with the shipped parameters, a
    transport fault on the second run's first probe makes it submit
    [Initialize] on the account the first run created. *)
Lemma C3_counterexample :
  let Z := with_oracle CONFIG_PARAMS_literal PublicKeyOps.default in
  let first := run Ledger.env (script Z IDL_PATH) ledger_empty in
  let second := run Ledger.env (script Z IDL_PATH) (final first) in
  let D := CONFIG_PARAMS_literal in
  let flaky := ledger_of [] [false; false; false; false; false; false; false; true] in
  let first' := run Ledger.env (script D IDL_PATH) flaky in
  let second' := run Ledger.env (script D IDL_PATH) (final first') in
  (result first = inr 0 ∧ plan (trace second) = [Update (sent_delta Z)])
  ∧ (result first' = inr 0 ∧ plan (trace second') = [Initialize]).
Proof.
  vm_compute. repeat split; reflexivity.
Qed.

(** ** C4: a link that is already set *)

(** C4 (as amended).  When the gate's fetch of step 5 decodes a config
    record whose link holds an address other than the null identity, the
    step reports the mint as already initialised: it does not probe the
    linked address, submits nothing, writes nothing to the error stream
    and returns normally, whatever that address holds. *)
Theorem C4_linked_mint_is_trusted (env : Env)
    (authority pda mint mauth : PublicKey) (w : World env) :
  let r := run env (main_step5 authority pda mint mauth) w in
  ∀ c key, probe_config (trace r) = Some c →
           pc_arkhamTokenMint c = Some key →
           key ≠ PublicKeyOps.default →
    infos (trace r) = [] ∧ submissions (trace r) = []
    ∧ on_stderr (trace r) = [] ∧ result r = inr tt.
Proof.
  intros r c key. subst r. by_wp env (main_step5 authority pda mint mauth) w.
  exec; unfold probe_config; cbn; intros Hc Hk Hd; simplify_eq/=; try done.
  all: unfold mintIsInitialized, PublicKeyOps.equals in *;
    rewrite Hk in *; apply negb_false_iff, N.eqb_eq in Heqb; done.
Qed.

Lemma C4_linked_mint_is_trusted_witness :
  infos
    (trace (run Ledger.env
       (main_step5 WALLET Ledger.CONFIG_PDA Ledger.MINT_PDA Ledger.MINT_AUTHORITY_PDA)
       ledger_stale_link)) = []
  ∧ submissions
      (trace (run Ledger.env
         (main_step5 WALLET Ledger.CONFIG_PDA Ledger.MINT_PDA Ledger.MINT_AUTHORITY_PDA)
         ledger_stale_link)) = []
  ∧ on_stderr
      (trace (run Ledger.env
         (main_step5 WALLET Ledger.CONFIG_PDA Ledger.MINT_PDA Ledger.MINT_AUTHORITY_PDA)
         ledger_stale_link)) = []
  ∧ result
      (run Ledger.env
         (main_step5 WALLET Ledger.CONFIG_PDA Ledger.MINT_PDA Ledger.MINT_AUTHORITY_PDA)
         ledger_stale_link) = inr tt.
Proof.
  apply (C4_linked_mint_is_trusted Ledger.env WALLET Ledger.CONFIG_PDA
           Ledger.MINT_PDA Ledger.MINT_AUTHORITY_PDA ledger_stale_link
           (config_of CONFIG_PARAMS_literal WALLET STALE_MINT) STALE_MINT).
  - vm_compute; reflexivity.
  - reflexivity.
  - vm_compute; discriminate.
Defined.

(** C4 as the specification states it fails: the config record links to
    an address that holds no account, yet step 5 never probes that
    address and returns without an error, and the whole script exits
    with code 0. *)
Lemma C4_counterexample :
  let r := run Ledger.env
             (main_step5 WALLET Ledger.CONFIG_PDA Ledger.MINT_PDA Ledger.MINT_AUTHORITY_PDA)
             ledger_stale_link in
  probe_config (trace r) = Some (config_of CONFIG_PARAMS_literal WALLET STALE_MINT)
  ∧ STALE_MINT ≠ PublicKeyOps.default
  ∧ Ledger.accounts ledger_stale_link !! STALE_MINT = None
  ∧ infos (trace r) = []
  ∧ result r = inr tt
  ∧ result (run Ledger.env (script CONFIG_PARAMS_literal IDL_PATH) ledger_stale_link)
      = inr 0.
Proof.
  vm_compute. repeat split; try reflexivity. discriminate.
Qed.

(** ** C5: stopping at the first failure *)

(** C5.  In every run of the script a submission that fails is the last
    submission of the run, and the process exits with code 1.  In
    particular, when the [Close] of the plan [Close; Initialize] fails,
    that plan came from an Incompatible observation and [Close] is the
    only transaction the run ever submits: [Initialize] is not attempted,
    nor is anything else. *)
Theorem C5_stops_at_first_failure (env : Env) (D : ConfigParams) (p : string)
    (w : World env) :
  let r := run env (script D p) w in
  (∀ before ix e after,
     submissions (trace r) = before ++ (ix, inl e) :: after →
     after = [] ∧ result r = inr 1)
  ∧ (∀ accs e,
       (IxCloseProtocolConfig accs, inl e) ∈ submissions (trace r) →
       observed_in (trace r) = Incompatible
       ∧ submitted (trace r) = [IxCloseProtocolConfig accs]).
Proof.
  intros r. subst r.
  destruct (script_shape env D p w) as (code & -> & Hrun).
  revert Hrun. generalize (trace (run env (script D p) w)). intros tr Hrun.
  shapes Hrun; open_contracts.
  all: observe.
  all: (split; [intros before ix e' after Heq; split_list before; done
               |intros accs e' Hin; rewrite ?elem_of_cons, ?elem_of_nil in Hin;
                try (exfalso; unfold methods_initializeProtocolConfig,
                       methods_updateProtocolConfig, methods_initializeArkhamMint,
                       methods_closeProtocolConfig in Hin;
                     intuition congruence)]).
  destruct Hin as [Hin|[]]. unfold methods_closeProtocolConfig in *.
  simplify_eq. split; [exact Heqo|done].
Qed.

Lemma C5_stops_at_first_failure_witness :
  observed_in
    (trace (run Ledger.env (script CONFIG_PARAMS_literal IDL_PATH) (ledger_foreign 5)))
  = Incompatible
  ∧ submitted
      (trace (run Ledger.env (script CONFIG_PARAMS_literal IDL_PATH) (ledger_foreign 5)))
    = [IxCloseProtocolConfig
         {| ca_protocolConfig := Ledger.CONFIG_PDA;
            ca_authority := WALLET;
            ca_receiver := WALLET |}].
Proof.
  refine (proj2 (C5_stops_at_first_failure Ledger.env CONFIG_PARAMS_literal IDL_PATH
            (ledger_foreign 5)) _ (Ledger.rejected "AuthorityMismatch") _).
  assert (submissions
            (trace (run Ledger.env (script CONFIG_PARAMS_literal IDL_PATH)
               (ledger_foreign 5)))
          = [(IxCloseProtocolConfig
                {| ca_protocolConfig := Ledger.CONFIG_PDA;
                   ca_authority := WALLET;
                   ca_receiver := WALLET |},
              inl (Ledger.rejected "AuthorityMismatch"))]) as ->
    by (vm_compute; reflexivity).
  left.
Defined.

(** ** C6: a fetch that cannot throw *)

(** C6 (as amended).  [fetchProtocolConfig] is total: whatever the typed
    fetch does, it returns the decoded record or [null] and never throws.
    It returns [null] for every fault of the fetch alike, so when the raw
    probe found an account, step 4 classifies any such fault, a transport
    failure included, as Incompatible and begins with [Close]. *)
Theorem C6_fetch_never_throws (env : Env) (D : ConfigParams)
    (authority pda : PublicKey) (w : World env) :
  (∀ a, let r := run env (fetchProtocolConfig a) w in
        result r = inr (probe_config (trace r))
        ∧ ∀ e, nth_fetch 0 (trace r) = Some (inl e) → result r = inr None)
  ∧ let r := run env (main_step4 D authority pda) w in
    ∀ info e, probe_account (trace r) = Some info →
              nth_fetch 0 (trace r) = Some (inl e) →
      observed_in (trace r) = Incompatible ∧ head (plan (trace r)) = Some Close.
Proof.
  split.
  - intros a r. subst r. by_wp env (fetchProtocolConfig a) w.
    exec; unfold probe_config, nth_fetch; cbn; split; try done.
  - intros r info e. subst r. by_wp env (main_step4 D authority pda) w.
    exec.
    all: unfold observed_in, observed, probe_account, probe_config, nth_fetch, plan; cbn;
      intros Hp Hf; simplify_eq/=; done.
Qed.

Lemma C6_fetch_never_throws_witness :
  observed_in
    (trace (run Ledger.env
       (main_step4 CONFIG_PARAMS_literal WALLET Ledger.CONFIG_PDA)
       (ledger_literal [false; true])))
  = Incompatible
  ∧ head (plan
      (trace (run Ledger.env
         (main_step4 CONFIG_PARAMS_literal WALLET Ledger.CONFIG_PDA)
         (ledger_literal [false; true]))))
    = Some Close.
Proof.
  refine (proj2 (C6_fetch_never_throws Ledger.env CONFIG_PARAMS_literal WALLET
            Ledger.CONFIG_PDA (ledger_literal [false; true]))
            (Ledger.raw_info Ledger.MintAccount) Ledger.network_error _ _).
  - vm_compute; reflexivity.
  - vm_compute; reflexivity.
Defined.

(** C6 as the specification states it fails in its last clause: a config
    address holding bytes of another layout and a healthy, up-to-date
    config record whose fetch is lost in transport give the reconciler the
    same [null], the same Incompatible classification and the same
    destructive plan. *)
Lemma C6_counterexample :
  let step4 := main_step4 CONFIG_PARAMS_literal WALLET Ledger.CONFIG_PDA in
  let schema := run Ledger.env step4 (ledger_foreign WALLET) in
  let outage := run Ledger.env step4 (ledger_literal [false; true]) in
  nth_fetch 0 (trace schema) = Some (inl (Error "Invalid account discriminator"))
  ∧ nth_fetch 0 (trace outage) = Some (inl Ledger.network_error)
  ∧ probe_config (trace schema) = probe_config (trace outage)
  ∧ observed_in (trace schema) = Incompatible
  ∧ observed_in (trace outage) = Incompatible
  ∧ plan (trace schema) = [Close; Initialize]
  ∧ plan (trace outage) = [Close; Initialize].
Proof.
  vm_compute. repeat split; reflexivity.
Qed.

(** ** C7: the gate of the dependent resource *)

(** C7.  In every run of the script, if the second fetch of the config
    record (the re-probe that opens step 5) does not decode, the run ends
    with exit code 1, the last thing on the error stream is the error
    "Protocol Config must be initialized before mint initialization", and
    no [InitializeArkhamMint] is submitted; equivalently, a run that
    submits [InitializeArkhamMint] had that re-probe decode a config
    record. *)
Theorem C7_gate_requires_compatible (env : Env) (D : ConfigParams) (p : string)
    (w : World env) :
  let r := run env (script D p) w in
  (∀ e, nth_fetch 1 (trace r) = Some (inl e) →
     result r = inr 1
     ∧ last (on_stderr (trace r))
         = Some (ErrorValue
             (Error "Protocol Config must be initialized before mint initialization"))
     ∧ existsb is_mint_initialization (submitted (trace r)) = false)
  ∧ (existsb is_mint_initialization (submitted (trace r)) = true →
     ∃ c, nth_fetch 1 (trace r) = Some (inr c)).
Proof.
  intros r. subst r.
  destruct (script_shape env D p w) as (code & -> & Hrun).
  revert Hrun. generalize (trace (run env (script D p) w)). intros tr Hrun.
  shapes Hrun; open_contracts.
  all: rewrite ?app_assoc, ?on_stderr_epilogue, ?last_two; rewrite <- ?app_assoc.
  all: observe.
  all: (split; [intros e' He'; simplify_eq/=; try done
               |intros Hm; simplify_eq/=; eauto]).
Qed.

Lemma C7_gate_requires_compatible_witness :
  (result (run Ledger.env (script CONFIG_PARAMS_literal IDL_PATH)
             (ledger_of [] [false; false; false; true])) = inr 1
   ∧ last (on_stderr
        (trace (run Ledger.env (script CONFIG_PARAMS_literal IDL_PATH)
           (ledger_of [] [false; false; false; true]))))
       = Some (ErrorValue
           (Error "Protocol Config must be initialized before mint initialization"))
   ∧ existsb is_mint_initialization
       (submitted
          (trace (run Ledger.env (script CONFIG_PARAMS_literal IDL_PATH)
             (ledger_of [] [false; false; false; true])))) = false)
  ∧ ∃ c, nth_fetch 1
           (trace (run Ledger.env (script CONFIG_PARAMS_literal IDL_PATH) ledger_empty))
         = Some (inr c).
Proof.
  split.
  - refine (proj1 (C7_gate_requires_compatible Ledger.env CONFIG_PARAMS_literal
              IDL_PATH (ledger_of [] [false; false; false; true]))
              Ledger.network_error _).
    vm_compute; reflexivity.
  - refine (proj2 (C7_gate_requires_compatible Ledger.env CONFIG_PARAMS_literal
              IDL_PATH ledger_empty) _).
    vm_compute; reflexivity.
Defined.

(** ** C8: exit codes *)




(** ** C9: a probe that faults *)

(** C9.  [getAccountInfo] and [accountExists] swallow a fault of the raw
    account probe: they return what they return for a missing account
    ([null], [false]).  So in every run of the script whose first raw probe
    (that of the config address) faults, the resource is classified as
    Absent and the first transaction submitted is
    [InitializeProtocolConfig] for that address; the fault itself is not
    surfaced. *)
Theorem C9_probe_fault_is_absent (env : Env) (D : ConfigParams) (p : string) :
  (∀ (a : PublicKey) (w : World env),
     match (respond env _ (connection_getAccountInfo a) w).1 with
     | inl _ | inr None =>
         result (run env (getAccountInfo a) w) = inr None
         ∧ result (run env (accountExists a) w) = inr false
     | inr (Some info) =>
         result (run env (getAccountInfo a) w) = inr (Some info)
         ∧ result (run env (accountExists a) w) = inr true
     end)
  ∧ (∀ w : World env,
       let r := run env (script D p) w in
       ∀ a e, infos (trace r) !! 0%nat = Some (a, inl e) →
         observed_in (trace r) = Absent
         ∧ ∃ args accs verdict rest,
             submissions (trace r)
               = (IxInitializeProtocolConfig args accs, verdict) :: rest
             ∧ ia_protocolConfig accs = a).
Proof.
  split.
  - intros a w. unfold getAccountInfo, accountExists, call. cbn.
    destruct (respond env _ (connection_getAccountInfo a) w) as [[e|[info|]] w'];
      cbn; auto.
  - intros w r a e. subst r.
    destruct (script_shape env D p w) as (code & _ & Hrun).
    revert Hrun. generalize (trace (run env (script D p) w)). intros tr Hrun.
    shapes Hrun; open_contracts.
    all: observe.
    all: intros; simplify_eq/=.
    all: split; [done|]; unfold methods_initializeProtocolConfig; eauto 10.
Qed.

Lemma C9_probe_fault_is_absent_witness :
  observed_in
    (trace (run Ledger.env (script CONFIG_PARAMS_literal IDL_PATH) (ledger_of [] [true])))
  = Absent
  ∧ ∃ args accs verdict rest,
      submissions
        (trace (run Ledger.env (script CONFIG_PARAMS_literal IDL_PATH)
           (ledger_of [] [true])))
      = (IxInitializeProtocolConfig args accs, verdict) :: rest
      ∧ ia_protocolConfig accs = Ledger.CONFIG_PDA.
Proof.
  refine (proj2 (C9_probe_fault_is_absent Ledger.env CONFIG_PARAMS_literal IDL_PATH)
            (ledger_of [] [true]) Ledger.CONFIG_PDA Ledger.network_error _).
  vm_compute; reflexivity.
Defined.

(** ** C10: a mint that exists but is not linked *)




(* ===================================================================== *)
(** * More about runs *)
(* ===================================================================== *)

Lemma wp_and {A : Type} (p : Prog A) (Q Q' : list Event → JsError + A → Prop) :
  wp p Q → wp p Q' → wp p (λ tr o, Q tr o ∧ Q' tr o).
Proof.
  revert Q Q'. induction p as [a|e|s m k IH|ms k IH|R c k IH];
    intros Q Q' H H'; simpl in *.
  - by split.
  - by split.
  - by apply (IH (λ tr o, Q (EvPrint s m :: tr) o) (λ tr o, Q' (EvPrint s m :: tr) o)).
  - by apply (IH (λ tr o, Q (EvSleep ms :: tr) o) (λ tr o, Q' (EvSleep ms :: tr) o)).
  - intros r.
    by apply (IH r (λ tr o, Q (EvCall c r :: tr) o) (λ tr o, Q' (EvCall c r :: tr) o)).
Qed.

Lemma setup_calls_app (a b : list Event) :
  setup_calls (a ++ b) = setup_calls a ++ setup_calls b.
Proof. apply omap_app. Qed.

Lemma timeline_app (a b : list Event) : timeline (a ++ b) = timeline a ++ timeline b.
Proof. apply omap_app. Qed.

Lemma announcements_app (a b : list Event) :
  announcements (a ++ b) = announcements a ++ announcements b.
Proof. unfold announcements. by rewrite on_stdout_app, omap_app. Qed.

Lemma confirmations_app (a b : list Event) :
  confirmations (a ++ b) = confirmations a ++ confirmations b.
Proof. unfold confirmations. by rewrite submissions_app, omap_app. Qed.

(** Steps 4 to 6 make none of the set-up calls. *)
Lemma steps_make_no_setup_call (D : ConfigParams) (authority pda mint mauth : PublicKey) :
  wp (steps D authority pda mint mauth) (λ t _, setup_calls t = []).
Proof.
  unfold steps.
  apply wp_bind. apply (wp_mono _ (λ t _, setup_calls t = [])); [|exec; reflexivity].
  intros t4 [e|[]] H4; [done|].
  apply wp_bind. apply (wp_mono _ (λ t _, setup_calls t = [])); [|exec; reflexivity].
  intros t5 [e|[]] H5; [by rewrite setup_calls_app, H4, H5|].
  apply (wp_mono _ (λ t _, setup_calls t = [])); [|exec; reflexivity].
  intros t6 o H6. by rewrite !setup_calls_app, H4, H5, H6.
Qed.

(** Every run of [main], by stages. *)
Lemma main_staged (D : ConfigParams) (p : string)
    (P : PublicKey → PublicKey → PublicKey → PublicKey →
         list Event → JsError + unit → Prop) :
  (∀ authority pda mint mauth,
     wp (steps D authority pda mint mauth) (P authority pda mint mauth)) →
  wp (main D p) (Staged p P).
Proof.
  intros HP.
  unfold main, loadIdl, getProtocolConfigPda, getArkhamMintPda, getMintAuthorityPda,
    console_log, call.
  cbn -[main_step4 main_step5 main_step6 idl_address_or_metadata].
  intros [e|provider]; cbn -[main_step4 main_step5 main_step6 idl_address_or_metadata].
  { left. exists e. repeat split. constructor. }
  intros [e|[|]]; cbn -[main_step4 main_step5 main_step6 idl_address_or_metadata].
  { left. exists e. repeat split. constructor. }
  2:{ left. eexists. repeat split. constructor. }
  intros [e|text]; cbn -[main_step4 main_step5 main_step6 idl_address_or_metadata].
  { left. exists e. repeat split. constructor. }
  intros [e|idl]; cbn -[main_step4 main_step5 main_step6 idl_address_or_metadata].
  { left. exists e. repeat split. constructor. }
  destruct (idl_address_or_metadata idl) as [address|e| | |] eqn:Hidl;
    try (exfalso; revert Hidl; unfold idl_address_or_metadata;
         repeat case_match; discriminate);
    cbn -[main_step4 main_step5 main_step6 idl_address_or_metadata].
  2:{ left. exists e. repeat split. by constructor. }
  intros [e|programId]; cbn -[main_step4 main_step5 main_step6 idl_address_or_metadata].
  { left. exists e. repeat split. by constructor. }
  intros [e|[]]; cbn -[main_step4 main_step5 main_step6 idl_address_or_metadata].
  { left. exists e. repeat split. by constructor. }
  intros [e|config]; cbn -[main_step4 main_step5 main_step6 idl_address_or_metadata].
  { left. exists e. repeat split. by constructor. }
  intros [e|mint]; cbn -[main_step4 main_step5 main_step6 idl_address_or_metadata].
  { left. exists e. repeat split. by constructor. }
  intros [e|mauth]; cbn -[main_step4 main_step5 main_step6 idl_address_or_metadata].
  { left. exists e. repeat split. by constructor. }
  eapply wp_mono; [|apply (HP (wallet_publicKey provider) config.1 mint.1 mauth.1)].
  intros t o Ht. right.
  match goal with |- context [?l = _ ++ _] =>
    let pre := prefix_of l t in
    exists pre, (wallet_publicKey provider), config.1, mint.1, mauth.1, t
  end.
  split; [reflexivity|]. split; [|exact Ht].
  split; [by repeat split|]. split; [reflexivity|]. split; [reflexivity|].
  by exists provider, text, idl, address, programId, config, mint, mauth.
Qed.

(** Every run of the script, by stages: a run of [main], then the exit
    report and the exit code. *)
Lemma script_staged (env : Env) (D : ConfigParams) (p : string) (w : World env)
    (P : PublicKey → PublicKey → PublicKey → PublicKey →
         list Event → JsError + unit → Prop) :
  (∀ authority pda mint mauth,
     wp (steps D authority pda mint mauth) (P authority pda mint mauth)) →
  ∃ t o, Staged p P t o
         ∧ trace (run env (script D p) w) = t ++ exit_report o
         ∧ result (run env (script D p) w) = inr (exit_code o).
Proof.
  intros HP. by_wp env (script D p) w.
  unfold script. apply wp_try_catch, wp_bind.
  eapply wp_mono; [|apply (main_staged D p P HP)].
  intros t [e|[]] Ht; cbn.
  - exists t, (inl e). split; [exact Ht|]. split; reflexivity.
  - exists t, (inr tt). split; [exact Ht|]. split; reflexivity.
Qed.

(** The transactions of steps 4 to 6 are built for the addresses the
    steps are given. *)
Lemma steps_addressed (D : ConfigParams) (authority pda mint mauth : PublicKey)
    (t : list Event) (o : JsError + unit) :
  StepsRun D authority pda mint mauth t o →
  ∀ ix, ix ∈ submitted t → ix ∈ own_transactions D authority pda mint mauth.
Proof.
  intros H. inversion H; subst; clear H; open_contracts.
  all: unfold submitted; rewrite ?submissions_app;
    repeat match goal with H : submissions _ = _ |- _ => rewrite H; clear H end;
    cbn; unfold own_transactions; intros ix Hix;
    rewrite !elem_of_cons, ?elem_of_nil in *; tauto.
Qed.

(** Steps 4 to 6 write on the error stream only when they throw. *)
Lemma steps_stderr (D : ConfigParams) (authority pda mint mauth : PublicKey) :
  wp (steps D authority pda mint mauth) (λ t o, o = inr tt → on_stderr t = []).
Proof.
  unfold steps.
  apply wp_bind.
  apply (wp_mono _ (λ t o, o = inr tt → on_stderr t = []));
    [|exec; intros; first [discriminate|reflexivity]].
  intros t4 [e|[]] H4; [done|].
  apply wp_bind.
  apply (wp_mono _ (λ t o, o = inr tt → on_stderr t = []));
    [|exec; intros; first [discriminate|reflexivity]].
  intros t5 [e|[]] H5; [done|].
  apply (wp_mono _ (λ t o, o = inr tt → on_stderr t = []));
    [|exec; intros; first [discriminate|reflexivity]].
  intros t6 o H6 Ho. by rewrite !on_stderr_app, H4, H5, H6.
Qed.

(** The beats of step 4: nothing, one submission that is not a confirmed
    [Close], or a confirmed [Close], the wait and [Initialize]. *)
Lemma step4_beats (D : ConfigParams) (authority pda : PublicKey) :
  wp (main_step4 D authority pda) (λ t _,
    timeline t = []
    ∨ (∃ ix ok, timeline t = [Submitted ix ok]
                ∧ (ok = false ∨ action_of ix ≠ Close))
    ∨ (∃ accs args accs' ok,
         timeline t = [Submitted (IxCloseProtocolConfig accs) true; Waited 2000;
                       Submitted (IxInitializeProtocolConfig args accs') ok])).
Proof.
  exec.
  all: unfold methods_initializeProtocolConfig, methods_updateProtocolConfig,
         methods_closeProtocolConfig; cbn.
  all: first [ by left
             | right; left; do 2 eexists; split; [reflexivity|]; cbn;
               first [by left | by right]
             | right; right; by do 4 eexists ].
Qed.

Lemma step5_beats (authority pda mint mauth : PublicKey) :
  wp (main_step5 authority pda mint mauth) (λ t _,
    timeline t = []
    ∨ ∃ accs ok, timeline t = [Submitted (IxInitializeArkhamMint accs) ok]).
Proof.
  exec.
  all: unfold methods_initializeArkhamMint; cbn.
  all: first [by left | right; by do 2 eexists].
Qed.

Lemma step6_beats (pda : PublicKey) :
  wp (main_step6 pda) (λ t _, timeline t = []).
Proof. exec; reflexivity. Qed.

Lemma paced_nil : Paced [].
Proof.
  split.
  - intros [|? ?] ? ? ?; discriminate.
  - intros [|? ?] ? ? ?; discriminate.
Qed.

Ltac split_beats before :=
  destruct before as [|? [|? [|? [|? [|? ?]]]]]; simplify_eq/=.

Lemma steps_paced (D : ConfigParams) (authority pda mint mauth : PublicKey) :
  wp (steps D authority pda mint mauth) (λ t _, Paced (timeline t)).
Proof.
  assert (∀ l4 l5,
    (l4 = []
     ∨ (∃ ix ok, l4 = [Submitted ix ok] ∧ (ok = false ∨ action_of ix ≠ Close))
     ∨ (∃ accs args accs' ok,
          l4 = [Submitted (IxCloseProtocolConfig accs) true; Waited 2000;
                Submitted (IxInitializeProtocolConfig args accs') ok])) →
    (l5 = [] ∨ ∃ accs ok, l5 = [Submitted (IxInitializeArkhamMint accs) ok]) →
    Paced (l4 ++ l5)) as Hpaced.
  { intros l4 l5 H4 H5.
    destruct H4 as [->|[(ix & ok & -> & Hok)|(accs & args & accs' & ok & ->)]];
      destruct H5 as [->|(accs5 & ok5 & ->)]; cbn.
    all: split; [intros before ms after Heq|intros before accs0 after Heq].
    all: split_beats before; eauto 8.
    all: destruct Hok as [?|Hok]; [done|]. all: by destruct Hok. }
  unfold steps.
  apply wp_bind. eapply wp_mono; [|apply step4_beats].
  intros t4 [e|[]] H4.
  { rewrite <- (app_nil_r (timeline t4)). apply Hpaced; [exact H4|by left]. }
  apply wp_bind. eapply wp_mono; [|apply step5_beats].
  intros t5 [e|[]] H5.
  { rewrite timeline_app. by apply Hpaced. }
  eapply wp_mono; [|apply step6_beats].
  intros t6 o H6. rewrite !timeline_app, H6, app_nil_r. by apply Hpaced.
Qed.

(** Steps 4 to 6 announce every confirmation, in order, and that the
    protocol is ready when they return. *)
Lemma steps_announce (D : ConfigParams) (authority pda mint mauth : PublicKey) :
  wp (steps D authority pda mint mauth) (λ t o,
    announcements t
    = (Succeeded <$> confirmations t)
      ++ match o with inr _ => [Ready] | inl _ => [] end).
Proof.
  unfold steps.
  apply wp_bind.
  apply (wp_mono _ (λ t _, announcements t = Succeeded <$> confirmations t));
    [|exec; reflexivity].
  intros t4 [e|[]] H4; [by rewrite app_nil_r|].
  apply wp_bind.
  apply (wp_mono _ (λ t _, announcements t = Succeeded <$> confirmations t));
    [|exec; reflexivity].
  intros t5 [e|[]] H5.
  { by rewrite announcements_app, confirmations_app, fmap_app, H4, H5, app_nil_r. }
  apply (wp_mono _ (λ t o,
    confirmations t = []
    ∧ announcements t = match o with inr _ => [Ready] | inl _ => [] end));
    [|exec; by split].
  intros t6 o [Hc H6].
  rewrite !announcements_app, !confirmations_app, !fmap_app, H4, H5, H6, Hc.
  cbn. by rewrite app_nil_r, !app_assoc.
Qed.

Lemma steps_leave (D : ConfigParams) (authority pda mint mauth : PublicKey) :
  wp (steps D authority pda mint mauth) (StepsLeave D authority pda mint mauth).
Proof.
  unfold StepsLeave.
  apply wp_and; [apply steps_shape|].
  apply wp_and; [apply steps_make_no_setup_call|].
  apply wp_and; [apply steps_paced|].
  apply wp_and; [apply steps_stderr|apply steps_announce].
Qed.

(** Every run of the script: the set-up stops and the failure is
    reported, or steps 4 to 6 run on the addresses it derived. *)
Lemma script_stages (env : Env) (D : ConfigParams) (p : string) (w : World env) :
  ∃ t o, Staged p (StepsLeave D) t o
         ∧ trace (run env (script D p) w) = t ++ exit_report o
         ∧ result (run env (script D p) w) = inr (exit_code o).
Proof. apply script_staged. intros. apply steps_leave. Qed.

Lemma setup_calls_exit_report (o : JsError + unit) : setup_calls (exit_report o) = [].
Proof. by destruct o. Qed.

Lemma timeline_exit_report (o : JsError + unit) : timeline (exit_report o) = [].
Proof. by destruct o. Qed.

Lemma infos_exit_report (o : JsError + unit) : infos (exit_report o) = [].
Proof. by destruct o. Qed.

Lemma fetches_exit_report (o : JsError + unit) : fetches (exit_report o) = [].
Proof. by destruct o. Qed.

Lemma submissions_exit_report (o : JsError + unit) : submissions (exit_report o) = [].
Proof. by destruct o. Qed.

(** The set-up calls of a run are those of its set-up stage. *)
Lemma staged_setup_calls (D : ConfigParams) (p : string) (t : list Event)
    (o : JsError + unit) :
  Staged p (StepsLeave D) t o →
  (∃ e, o = inl e ∧ SetupStops p (setup_calls t) e
        ∧ infos t = [] ∧ fetches t = [] ∧ submissions t = [] ∧ timeline t = [])
  ∨ (∃ provider text idl address programId config mint mauth pre t',
       t = pre ++ t'
       ∧ idl_program_address idl address
       ∧ setup_calls t
         = setup_script p provider text idl address programId config mint mauth
       ∧ infos pre = [] ∧ fetches pre = [] ∧ submissions pre = []
       ∧ on_stderr pre = [] ∧ timeline pre = []
       ∧ StepsLeave D (wallet_publicKey provider) config.1 mint.1 mauth.1 t' o).
Proof.
  intros [(e & -> & (? & ? & ? & ?) & ? & ? & ?)
         |(pre & a & pda & mint & mauth & t' & -> & Hset & Hsteps)].
  - left. exists e. by repeat split.
  - right. destruct Hset as ((? & ? & ? & ?) & ? & ? &
      provider & text & idl & address & programId & config & mint' & mauth' &
      ? & Hcalls & -> & -> & -> & ->).
    exists provider, text, idl, address, programId, config, mint', mauth', pre, t'.
    split; [reflexivity|]. split; [assumption|].
    split; [|by repeat (split; [assumption|])].
    rewrite setup_calls_app, Hcalls.
    destruct Hsteps as (_ & -> & _). by rewrite app_nil_r.
Qed.

(** The announcements of a run of [main]. *)
Lemma staged_announcements (D : ConfigParams) (p : string) (t : list Event)
    (o : JsError + unit) :
  Staged p (StepsLeave D) t o →
  announcements t
  = (Succeeded <$> confirmations t)
    ++ match o with inr _ => [Ready] | inl _ => [] end.
Proof.
  intros [(e & -> & (_ & _ & Hs & _) & _ & Ha & _)
         |(pre & a & pda & mint & mauth & t' & -> & Hset & Hsteps)].
  - unfold confirmations. by rewrite Ha, Hs.
  - destruct Hset as ((_ & _ & Hs & _) & _ & Ha & _).
    destruct Hsteps as (_ & _ & _ & _ & Ht).
    assert (confirmations pre = []) as Hc by (unfold confirmations; by rewrite Hs).
    by rewrite announcements_app, confirmations_app, Ha, Ht, Hc.
Qed.

(* ===================================================================== *)
(** * Further properties of the script *)
(* ===================================================================== *)

(** ** The set-up *)

(** X1.  Steps 1 to 3 of [main] make their calls in one fixed order
    (provider, existence check, read, parse, program key, program
    instance, the three address derivations) and stop at the first call
    that fails: the run then exits with code 1, reports that very error
    last on the error stream, and has probed and fetched nothing,
    submitted nothing and waited for nothing.  Otherwise all nine calls
    were made, the parsed IDL and the provider are the ones the program
    instance was built from, the three addresses were derived for the one
    program key, and the first raw probe of the run is of the derived
    config address. *)
Theorem setup_stops_at_first_failure (env : Env) (D : ConfigParams) (p : string)
    (w : World env) :
  let r := run env (script D p) w in
  (∃ e, SetupStops p (setup_calls (trace r)) e
        ∧ result r = inr 1
        ∧ last (on_stderr (trace r)) = Some (ErrorValue e)
        ∧ infos (trace r) = [] ∧ fetches (trace r) = []
        ∧ timeline (trace r) = [])
  ∨ (∃ provider text idl address programId config mint mauth,
       idl_program_address idl address
       ∧ setup_calls (trace r)
         = setup_script p provider text idl address programId config mint mauth
       ∧ ∃ ri, head (infos (trace r)) = Some (config.1, ri)).
Proof.
  intros r. subst r.
  destruct (script_stages env D p w) as (t & o & Hst & -> & ->).
  rewrite setup_calls_app, infos_app, fetches_app, timeline_app,
    setup_calls_exit_report, infos_exit_report, fetches_exit_report,
    timeline_exit_report, !app_nil_r.
  apply staged_setup_calls in Hst
    as [(e & -> & Hstop & Hi & Hf & Hs & Htl)
       |(provider & text & idl & address & programId & config & mint & mauth &
         pre & t' & -> & Hidl & Hcalls & Hi & _ & _ & _ & _ & Hsteps & _)].
  - left. exists e. cbn [exit_report exit_code].
    rewrite on_stderr_epilogue, last_two. by repeat split.
  - right. exists provider, text, idl, address, programId, config, mint, mauth.
    split; [exact Hidl|]. split; [exact Hcalls|].
    rewrite infos_app, Hi. cbn.
    inversion Hsteps; subst; open_contracts; rewrite ?infos_app;
      repeat match goal with H : infos _ = _ |- _ => rewrite H; clear H end;
      cbn; eauto.
Qed.

(** X2.  When the existence check of the IDL file answers [false], the
    run makes no further call at all: it does not read or parse the
    file, builds no key, reaches no RPC node and submits nothing; it
    exits with code 1 and the last thing on the error stream is the
    error "IDL file not found at: ...".  The path checked is the IDL
    path. *)
Theorem missing_idl_file_stops_the_run (env : Env) (D : ConfigParams) (p : string)
    (w : World env) :
  let r := run env (script D p) w in
  ∀ path, CheckedFile path (inr false) ∈ setup_calls (trace r) →
    path = p
    ∧ (∃ provider,
         setup_calls (trace r)
         = [GotProvider (inr provider); CheckedFile p (inr false)])
    ∧ infos (trace r) = [] ∧ fetches (trace r) = [] ∧ submissions (trace r) = []
    ∧ result r = inr 1
    ∧ last (on_stderr (trace r))
      = Some (ErrorValue (Error "IDL file not found at: ${idlPath}")).
Proof.
  intros r. subst r.
  destruct (script_stages env D p w) as (t & o & Hst & -> & ->).
  rewrite setup_calls_app, infos_app, fetches_app, submissions_app,
    setup_calls_exit_report, infos_exit_report, fetches_exit_report,
    submissions_exit_report, !app_nil_r.
  intros path Hin.
  apply staged_setup_calls in Hst
    as [(e & -> & Hstop & Hi & Hf & Hs & Htl)
       |(provider & text & idl & address & programId & config & mint & mauth &
         pre & t' & -> & Hidl & Hcalls & _)].
  - cbn [exit_report exit_code]. rewrite on_stderr_epilogue, last_two.
    inversion Hstop as [ | | provider Hcalls | | | | | | | | ];
      try (exfalso; match goal with H : _ = setup_calls t |- _ =>
             rewrite <- H in Hin end;
           rewrite !elem_of_cons, elem_of_nil in Hin;
           intuition discriminate).
    rewrite <- Hcalls in Hin. rewrite !elem_of_cons, elem_of_nil in Hin.
    destruct Hin as [Hin|[Hin|[]]]; [discriminate|]. injection Hin as ->.
    repeat split; eauto.
  - exfalso. rewrite Hcalls in Hin. unfold setup_script in Hin.
    rewrite !elem_of_cons, elem_of_nil in Hin. intuition discriminate.
Qed.

Lemma missing_idl_file_stops_the_run_witness :
  result (run (bench None) (script CONFIG_PARAMS_literal IDL_PATH) tt) = inr 1.
Proof.
  refine (proj1 (proj2 (proj2 (proj2 (proj2 (proj2
    (missing_idl_file_stops_the_run (bench None) CONFIG_PARAMS_literal IDL_PATH tt
       IDL_PATH _))))))).
  vm_compute. right. left.
Defined.

(** A key was built from the address the IDL gives. *)
Ltac built_key Hbuilt :=
  let Ha := fresh "Ha" in
  let Hm := fresh "Hm" in
  let Hn := fresh "Hn" in
  let H1 := fresh in
  let H2 := fresh in
  match goal with |- (∀ a, _ → _ → ∃ key, _ ∈ ?l) ∧ _ =>
    destruct (Hbuilt l) as (Ha & Hm & Hn);
      [do 2 eexists; split; [eassumption|]; rewrite !elem_of_cons; eauto 10|]
  end;
  split; [exact Ha|]; split; [exact Hm|];
  intros H1 H2; destruct (Hn H1 H2).

(** X3.  The program key is built from [idl.address || idl.metadata.address]
    of the IDL the parser returned.  A non-empty [idl.address] is what
    [new PublicKey] receives, whatever the metadata holds; an absent or
    empty one makes the script pass [idl.metadata.address] instead, even
    when that is undefined; and with neither an address nor metadata the
    run builds no key, makes no RPC call, exits with code 1 and reports
    the TypeError of reading [address] of undefined. *)
Theorem program_key_comes_from_the_idl (env : Env) (D : ConfigParams) (p : string)
    (w : World env) :
  let r := run env (script D p) w in
  ∀ text idl, ParsedJson text (inr idl) ∈ setup_calls (trace r) →
    (∀ a, idl_address idl = Some a → a ≠ "" →
       ∃ key, BuiltKey (Some a) key ∈ setup_calls (trace r))
    ∧ (∀ metadata,
         idl_address idl = None ∨ idl_address idl = Some "" →
         idl_metadata idl = Some metadata →
         ∃ key, BuiltKey (md_address metadata) key ∈ setup_calls (trace r))
    ∧ (idl_address idl = None ∨ idl_address idl = Some "" →
       idl_metadata idl = None →
       (∀ value key, BuiltKey value key ∉ setup_calls (trace r))
       ∧ infos (trace r) = [] ∧ fetches (trace r) = []
       ∧ submissions (trace r) = []
       ∧ result r = inr 1
       ∧ last (on_stderr (trace r))
         = Some (ErrorValue
             (TypeError "Cannot read properties of undefined (reading 'address')"))).
Proof.
  intros r. subst r.
  destruct (script_stages env D p w) as (t & o & Hst & -> & ->).
  rewrite setup_calls_app, infos_app, fetches_app, submissions_app,
    setup_calls_exit_report, infos_exit_report, fetches_exit_report,
    submissions_exit_report, !app_nil_r.
  intros text idl Hin.
  assert (∀ calls : list SetupCall,
    (∃ address key, idl_program_address idl address ∧ BuiltKey address key ∈ calls) →
    (∀ a, idl_address idl = Some a → a ≠ "" → ∃ key, BuiltKey (Some a) key ∈ calls)
    ∧ (∀ metadata, idl_address idl = None ∨ idl_address idl = Some "" →
         idl_metadata idl = Some metadata →
         ∃ key, BuiltKey (md_address metadata) key ∈ calls)
    ∧ (idl_address idl = None ∨ idl_address idl = Some "" →
       idl_metadata idl = None → False)) as Hbuilt.
  { intros calls (address & key & Hidl & Hkey). revert Hidl.
    unfold idl_program_address, idl_address_or_metadata.
    destruct (idl_address idl) as [a|]; [destruct (String.eqb_spec a "")|];
      destruct (idl_metadata idl) as [md|]; intros Heq; simplify_eq/=;
      repeat split; intros; simplify_eq/=; eauto; intuition congruence. }
  assert (∀ e, idl_address_or_metadata idl = Throw e →
    (∀ a, idl_address idl = Some a → a ≠ "" → False)
    ∧ (∀ metadata, idl_address idl = None ∨ idl_address idl = Some "" →
         idl_metadata idl = Some metadata → False)
    ∧ e = TypeError "Cannot read properties of undefined (reading 'address')")
    as Hbad.
  { intros e. unfold idl_address_or_metadata.
    destruct (idl_address idl) as [a|]; [destruct (String.eqb_spec a "")|];
      destruct (idl_metadata idl) as [md|]; intros Heq; simplify_eq/=;
      repeat split; intros; simplify_eq/=; try done; intuition congruence. }
  revert Hbuilt Hbad. generalize dependent idl. intros idl Hin Hbuilt Hbad.
  apply staged_setup_calls in Hst
    as [(e & -> & Hstop & Hi & Hf & Hs & Htl)
       |(provider & text' & idl' & address & programId & config & mint & mauth &
         pre & t' & -> & Hidl & Hcalls & _)].
  - cbn [exit_report exit_code]. rewrite on_stderr_epilogue, last_two.
    inversion Hstop; subst;
      match goal with H : _ = setup_calls t |- _ =>
        rewrite <- H in Hin; clear H end;
      rewrite ?elem_of_cons, ?elem_of_nil in Hin;
      repeat (destruct Hin as [Hin|Hin]; [try discriminate Hin|]);
      try contradiction; injection Hin as <- <-.
    + match goal with H : idl_address_or_metadata _ = Throw _ |- _ =>
        destruct (Hbad _ H) as (Ha & Hm & ->) end.
      split; [intros a ? ?; by destruct (Ha a)|].
      split; [intros md ? ?; by destruct (Hm md)|].
      intros _ _. repeat split; try done.
      intros value key. rewrite !elem_of_cons, elem_of_nil. intuition discriminate.
    + built_key Hbuilt.
    + built_key Hbuilt.
    + built_key Hbuilt.
    + built_key Hbuilt.
    + built_key Hbuilt.
  - rewrite Hcalls in Hin |- *. unfold setup_script in Hin |- *.
    rewrite ?elem_of_cons, ?elem_of_nil in Hin.
    repeat (destruct Hin as [Hin|Hin]; [try discriminate Hin|]);
      try contradiction; injection Hin as <- <-.
    built_key Hbuilt.
Qed.

Lemma program_key_comes_from_the_idl_witness :
  result (run (bench (Some {| idl_address := Some ""; idl_metadata := None |}))
            (script CONFIG_PARAMS_literal IDL_PATH) tt) = inr 1.
Proof.
  refine (proj1 (proj2 (proj2 (proj2 (proj2
    (proj2 (proj2
      (program_key_comes_from_the_idl
         (bench (Some {| idl_address := Some ""; idl_metadata := None |}))
         CONFIG_PARAMS_literal IDL_PATH tt "{}"
         {| idl_address := Some ""; idl_metadata := None |} _)) _ _))))));
    [|by right|reflexivity].
  vm_compute. right. right. right. left.
Defined.

(** ** The transactions of a run *)

(** X4.  Every transaction a run submits is one of the four the script
    builds for the addresses of its own set-up: the authority, the
    treasury of [InitializeProtocolConfig] and the receiver of
    [CloseProtocolConfig] are the provider's wallet, the config account
    is the address derived for the seed "protocol_config", the mint and
    its authority are the addresses derived for "arkham_mint" and for
    "arkham", "mint", "authority", all for the program key built from
    the IDL, and the arguments are those of [CONFIG_PARAMS]. *)
Theorem transactions_use_the_derived_addresses (env : Env) (D : ConfigParams)
    (p : string) (w : World env) :
  let r := run env (script D p) w in
  ∀ ix, ix ∈ submitted (trace r) →
    ∃ provider text idl address programId config mint mauth,
      setup_calls (trace r)
      = setup_script p provider text idl address programId config mint mauth
      ∧ ix ∈ own_transactions D (wallet_publicKey provider) config.1 mint.1 mauth.1.
Proof.
  intros r. subst r.
  destruct (script_stages env D p w) as (t & o & Hst & -> & _).
  unfold submitted.
  rewrite setup_calls_app, submissions_app, setup_calls_exit_report,
    submissions_exit_report, !app_nil_r.
  intros ix Hix.
  apply staged_setup_calls in Hst
    as [(e & -> & Hstop & Hi & Hf & Hs & Htl)
       |(provider & text & idl & address & programId & config & mint & mauth &
         pre & t' & -> & Hidl & Hcalls & _ & _ & Hs & _ & _ & Hsteps & _)].
  - rewrite Hs in Hix. cbn in Hix. by apply elem_of_nil in Hix.
  - exists provider, text, idl, address, programId, config, mint, mauth.
    split; [exact Hcalls|].
    rewrite submissions_app, Hs in Hix.
    by apply (steps_addressed D _ _ _ _ t' o Hsteps).
Qed.

Lemma transactions_use_the_derived_addresses_witness :
  ∃ provider text idl address programId config mint mauth,
    setup_calls
      (trace (run Ledger.env (script CONFIG_PARAMS_literal IDL_PATH) ledger_empty))
    = setup_script IDL_PATH provider text idl address programId config mint mauth
    ∧ methods_initializeArkhamMint WALLET Ledger.CONFIG_PDA Ledger.MINT_PDA
          Ledger.MINT_AUTHORITY_PDA
        ∈ own_transactions CONFIG_PARAMS_literal (wallet_publicKey provider)
            config.1 mint.1 mauth.1.
Proof.
  apply (transactions_use_the_derived_addresses Ledger.env CONFIG_PARAMS_literal
           IDL_PATH ledger_empty).
  vm_compute. right. left.
Defined.

(** X5.  The error stream tells the exit code: a run that exits with
    code 0 wrote nothing on it, and a run that exits with code 1 did. *)
Theorem stderr_is_empty_iff_exit_0 (env : Env) (D : ConfigParams) (p : string)
    (w : World env) :
  let r := run env (script D p) w in
  (result r = inr 0 ∧ on_stderr (trace r) = [])
  ∨ (result r = inr 1 ∧ on_stderr (trace r) ≠ []).
Proof.
  intros r. subst r.
  destruct (script_stages env D p w) as (t & o & Hst & -> & ->).
  destruct o as [e|[]]; cbn [exit_report exit_code].
  - right. split; [reflexivity|]. rewrite on_stderr_epilogue.
    by destruct (on_stderr t).
  - left. split; [reflexivity|]. rewrite app_nil_r.
    apply staged_setup_calls in Hst
      as [(e & ? & _)
         |(provider & text & idl & address & programId & config & mint & mauth &
           pre & t' & -> & _ & _ & _ & _ & _ & Herr & _ & _ & _ & _ & Hquiet & _)];
      [discriminate|].
    by rewrite on_stderr_app, Herr, Hquiet.
Qed.

(** X6.  The pace of every run: the script waits only once, for 2000 ms,
    and only between a confirmed [CloseProtocolConfig], which is then the
    first transaction of the run, and the [InitializeProtocolConfig] it
    submits next; and it never goes on after a confirmed
    [CloseProtocolConfig] without that wait. *)
Theorem waits_only_after_a_confirmed_close (env : Env) (D : ConfigParams)
    (p : string) (w : World env) :
  let r := run env (script D p) w in
  (∀ before ms after, timeline (trace r) = before ++ Waited ms :: after →
     ms = 2000
     ∧ (∃ accs, before = [Submitted (IxCloseProtocolConfig accs) true])
     ∧ ∃ args accs ok rest,
         after = Submitted (IxInitializeProtocolConfig args accs) ok :: rest)
  ∧ (∀ before accs after,
       timeline (trace r)
       = before ++ Submitted (IxCloseProtocolConfig accs) true :: after →
       ∃ rest, after = Waited 2000 :: rest).
Proof.
  intros r. subst r.
  destruct (script_stages env D p w) as (t & o & Hst & -> & _).
  rewrite timeline_app, timeline_exit_report, app_nil_r.
  apply staged_setup_calls in Hst
    as [(e & -> & Hstop & Hi & Hf & Hs & ->)
       |(provider & text & idl & address & programId & config & mint & mauth &
         pre & t' & -> & _ & _ & _ & _ & _ & _ & Htl & _ & _ & Hpaced & _)].
  - apply paced_nil.
  - rewrite timeline_app, Htl. exact Hpaced.
Qed.

Lemma waits_only_after_a_confirmed_close_witness :
  2000 = 2000
  ∧ (∃ accs,
       [Submitted (methods_closeProtocolConfig WALLET Ledger.CONFIG_PDA) true]
       = [Submitted (IxCloseProtocolConfig accs) true])
  ∧ ∃ args accs ok rest,
      [Submitted
         (methods_initializeProtocolConfig CONFIG_PARAMS_literal WALLET
            Ledger.CONFIG_PDA WALLET) true;
       Submitted
         (methods_initializeArkhamMint WALLET Ledger.CONFIG_PDA Ledger.MINT_PDA
            Ledger.MINT_AUTHORITY_PDA) true]
      = Submitted (IxInitializeProtocolConfig args accs) ok :: rest.
Proof.
  apply (proj1 (waits_only_after_a_confirmed_close Ledger.env CONFIG_PARAMS_literal
                  IDL_PATH (ledger_foreign WALLET))).
  vm_compute. reflexivity.
Defined.

(** X7.  The RPC traffic of a run is bounded and ordered: at most two raw
    probes, three typed fetches and three submissions; every typed fetch
    is of the address the first raw probe looked at; a run that makes no
    raw probe makes no fetch and no submission and exits with code 1; and
    a run that exits with code 0 fetched the config record exactly three
    times. *)
Theorem rpc_traffic_is_bounded (env : Env) (D : ConfigParams) (p : string)
    (w : World env) :
  let r := run env (script D p) w in
  (List.length (infos (trace r)) ≤ 2 ∧ List.length (fetches (trace r)) ≤ 3
   ∧ List.length (submissions (trace r)) ≤ 3)%nat
  ∧ (∀ a rf, (a, rf) ∈ fetches (trace r) →
       ∃ ri, head (infos (trace r)) = Some (a, ri))
  ∧ (infos (trace r) = [] →
       fetches (trace r) = [] ∧ submissions (trace r) = [] ∧ result r = inr 1)
  ∧ (result r = inr 0 → List.length (fetches (trace r)) = 3%nat).
Proof.
  intros r. subst r.
  destruct (script_shape env D p w) as (code & -> & Hrun).
  revert Hrun. generalize (trace (run env (script D p) w)). intros tr Hrun.
  shapes Hrun; open_contracts.
  all: observe.
  all: (split; [repeat split; lia|]);
    (split; [intros a rf' Hin; rewrite ?elem_of_cons, ?elem_of_nil in Hin;
             intuition (simplify_eq; eauto)|]);
    (split; [intros ?; by simplify_eq|]); intros ?; by simplify_eq.
Qed.

Lemma rpc_traffic_is_bounded_witness :
  List.length (fetches
    (trace (run Ledger.env (script CONFIG_PARAMS_literal IDL_PATH) ledger_empty)))
  = 3%nat.
Proof.
  refine (proj2 (proj2 (proj2
    (rpc_traffic_is_bounded Ledger.env CONFIG_PARAMS_literal IDL_PATH ledger_empty)))
    _).
  vm_compute; reflexivity.
Defined.

(** X8.  The plan of a run is a plan for the config record followed by a
    plan for the mint.  For the config record the script submits
    nothing, [Initialize] alone, [Close] alone, [Close] then
    [Initialize], or one [Update] carrying the delta built from
    [CONFIG_PARAMS]; for the mint nothing, or [InitializeDependent]
    alone.  So no run submits both an [Update] and an [Initialize], a
    [Close] is always the first submission, and the mint is always
    initialised last. *)
Theorem plans_of_a_run (env : Env) (D : ConfigParams) (p : string) (w : World env) :
  let r := run env (script D p) w in
  ∃ primary dependent,
    plan (trace r) = primary ++ dependent
    ∧ primary ∈ primary_plans D
    ∧ dependent ∈ dependent_plans.
Proof.
  intros r. subst r.
  destruct (script_shape env D p w) as (code & _ & Hrun).
  revert Hrun. generalize (trace (run env (script D p) w)). intros tr Hrun.
  shapes Hrun; open_contracts.
  all: observe.
  all: unfold primary_plans, dependent_plans.
  all: match goal with
       | |- ∃ primary dependent, ?l = _ ∧ _ =>
           lazymatch l with
           | context [InitializeDependent] =>
               exists (removelast l), [InitializeDependent]
           | _ => exists l, []
           end
       end; cbn.
  all: rewrite ?app_nil_r; split; [reflexivity|].
  all: split; rewrite !elem_of_cons; unfold sent_delta; auto 10.
Qed.

(** X9.  What the run reports when a submission is rejected.  The error
    printed last on the error stream is the node's own error, except in
    the migration of step 4: when the config record was observed as
    Incompatible and [Close], or the [Initialize] after a confirmed
    [Close], is rejected, the error reported is always "Cannot proceed -
    account exists but is incompatible", whatever the node said. *)
Theorem rejection_report (env : Env) (D : ConfigParams) (p : string) (w : World env) :
  let r := run env (script D p) w in
  ∀ before ix e after,
    submissions (trace r) = before ++ (ix, inl e) :: after →
    last (on_stderr (trace r))
    = Some (ErrorValue
        (if in_migration (observed_in (trace r)) ix then cannot_proceed else e)).
Proof.
  intros r. subst r.
  destruct (script_shape env D p w) as (code & _ & Hrun).
  revert Hrun. generalize (trace (run env (script D p) w)). intros tr Hrun.
  shapes Hrun; open_contracts.
  all: rewrite ?app_assoc, ?on_stderr_epilogue, ?last_two; rewrite <- ?app_assoc.
  all: observe.
  all: intros before ix e' after Heq; split_list before; try done.
  all: unfold observed, swallow, decoded in *;
    repeat match goal with H : _ = _ |- _ => rewrite H end; cbn; try done.
Qed.

Lemma rejection_report_witness :
  last (on_stderr
    (trace (run Ledger.env (script CONFIG_PARAMS_literal IDL_PATH) (ledger_foreign 5))))
  = Some (ErrorValue
      (if in_migration
            (observed_in
               (trace (run Ledger.env (script CONFIG_PARAMS_literal IDL_PATH)
                  (ledger_foreign 5))))
            (methods_closeProtocolConfig WALLET Ledger.CONFIG_PDA)
       then cannot_proceed
       else Ledger.rejected "AuthorityMismatch")).
Proof.
  apply (rejection_report Ledger.env CONFIG_PARAMS_literal IDL_PATH (ledger_foreign 5)
           [] _ _ []).
  vm_compute; reflexivity.
Defined.

(** ** The summary and the helpers *)

(** X10.  The summary of step 6 fetches the config record once and
    submits and probes nothing.  It reads the record without a null
    test: when the fetch fails it throws the TypeError of reading
    [authority] of null, and when the record has no [arkhamTokenMint] the
    TypeError of reading [toBase58] of undefined; otherwise it returns.
    In a run of the script the summary is the third fetch: a run that
    gets there had every submission confirmed, and its exit code is 0
    exactly when that fetch decodes a record whose link field is
    present. *)
Theorem summary_needs_the_final_record (env : Env) (D : ConfigParams) (p : string)
    (pda : PublicKey) (w : World env) :
  (let r := run env (main_step6 pda) w in
   submissions (trace r) = [] ∧ infos (trace r) = [] ∧ on_stderr (trace r) = []
   ∧ ∃ rf, fetches (trace r) = [(pda, rf)]
     ∧ result r
       = match rf with
         | inl _ =>
             inl (TypeError "Cannot read properties of null (reading 'authority')")
         | inr c =>
             match pc_arkhamTokenMint c with
             | None =>
                 inl (TypeError
                        "Cannot read properties of undefined (reading 'toBase58')")
             | Some _ => inr tt
             end
         end)
  ∧ (let r := run env (script D p) w in
     ∀ rf, nth_fetch 2 (trace r) = Some rf →
       all_confirmed (trace r) = true
       ∧ (result r = inr 0
          ↔ ∃ c, rf = inr c ∧ is_Some (pc_arkhamTokenMint c))).
Proof.
  split.
  - intros r. subst r. by_wp env (main_step6 pda) w.
    exec; repeat split; eexists; (split; [reflexivity|]); cbn;
      repeat match goal with H : _ = _ |- _ => rewrite H end; reflexivity.
  - intros r. subst r.
    destruct (script_shape env D p w) as (code & -> & Hrun).
    revert Hrun. generalize (trace (run env (script D p) w)). intros tr Hrun.
    shapes Hrun; open_contracts.
    all: observe.
    all: intros rf' Hrf; simplify_eq/=.
    all: split; [done|]; split; [intros ?; simplify_eq; eauto|].
    all: intros (c' & ? & [? ?]); by simplify_eq.
Qed.

Lemma summary_needs_the_final_record_witness :
  all_confirmed
    (trace (run Ledger.env (script CONFIG_PARAMS_literal IDL_PATH)
       (ledger_of [] [false; false; false; false; false; false; true])))
  = true.
Proof.
  refine (proj1 (proj2
    (summary_needs_the_final_record Ledger.env CONFIG_PARAMS_literal IDL_PATH 0
       (ledger_of [] [false; false; false; false; false; false; true]))
    (inl Ledger.network_error) _)).
  vm_compute; reflexivity.
Defined.

(** X11.  Each of the four helpers that send a transaction submits
    exactly that one transaction and makes no other RPC call.  When the
    node confirms it the helper returns and nothing is written on the
    error stream; when the node rejects it the helper writes its failure
    line and the message line on the error stream and rethrows the
    node's error unchanged. *)
Theorem helpers_rethrow_the_rejection (env : Env) (D : ConfigParams)
    (authority pda treasury mint mauth : PublicKey) (w : World env) :
  (let r := run env (initializeProtocolConfig D authority pda treasury) w in
   Submits (methods_initializeProtocolConfig D authority pda treasury)
     "❌ Failed to initialize Protocol Config:" (trace r) (result r))
  ∧ (let r := run env (updateProtocolConfig D authority pda) w in
     Submits (methods_updateProtocolConfig D authority pda)
       "❌ Failed to update Protocol Config:" (trace r) (result r))
  ∧ (let r := run env (closeProtocolConfig authority pda) w in
     Submits (methods_closeProtocolConfig authority pda)
       "❌ Failed to close Protocol Config:" (trace r) (result r))
  ∧ (let r := run env (initializeArkhamMint authority pda mint mauth) w in
     Submits (methods_initializeArkhamMint authority pda mint mauth)
       "❌ Failed to initialize ARKHAM Mint:" (trace r) (result r)).
Proof.
  split; [|split; [|split]]; intros r; subst r.
  - by_wp env (initializeProtocolConfig D authority pda treasury) w.
    exec; unfold Submits; eexists; (split; [reflexivity|]); by repeat split.
  - by_wp env (updateProtocolConfig D authority pda) w.
    exec; unfold Submits; eexists; (split; [reflexivity|]); by repeat split.
  - by_wp env (closeProtocolConfig authority pda) w.
    exec; unfold Submits; eexists; (split; [reflexivity|]); by repeat split.
  - by_wp env (initializeArkhamMint authority pda mint mauth) w.
    exec; unfold Submits; eexists; (split; [reflexivity|]); by repeat split.
Qed.

(** ** What the script tells the operator *)

(** X12.  The success lines of a run are truthful.  The lines
    "Protocol Config initialized / updated / closed successfully!" and
    "ARKHAM Mint initialized successfully!" appear on the output stream
    exactly for the transactions the node confirmed, one line per
    confirmation and in the order of the submissions; and the closing
    line "Protocol is ready for use!" is printed, last of all
    announcements, exactly when the run exits with code 0. *)
Theorem success_lines_are_truthful (env : Env) (D : ConfigParams) (p : string)
    (w : World env) :
  let r := run env (script D p) w in
  ∃ code, result r = inr code
    ∧ announcements (trace r)
      = (Succeeded <$> confirmations (trace r))
        ++ (if N.eqb code 0 then [Ready] else []).
Proof.
  intros r. subst r.
  destruct (script_stages env D p w) as (t & o & Hst & -> & ->).
  exists (exit_code o). split; [reflexivity|].
  apply staged_announcements in Hst.
  rewrite announcements_app, confirmations_app, Hst.
  destruct o as [e|[]]; cbn; by rewrite !app_nil_r.
Qed.

(* ===================================================================== *)
(** * The migration and the vault script *)
(* ===================================================================== *)

Lemma workspace_wp_run (env : Workspace.Env) {A : Type} (p : Workspace.Prog A)
    (Q : list Workspace.Event → JsError + A → Prop) (w : Workspace.World env) :
  Workspace.wp p Q →
  Q (Workspace.trace (Workspace.run env p w)) (Workspace.result (Workspace.run env p w)).
Proof.
  revert Q w. induction p as [a|e|s m k IH|R c k IH]; intros Q w HQ; simpl in *.
  - exact HQ.
  - exact HQ.
  - apply (IH (λ tr o, Q (Workspace.EvPrint s m :: tr) o)), HQ.
  - apply (IH _ (λ tr o, Q (Workspace.EvCall c _ :: tr) o)), HQ.
Qed.

(** X13.  The migration.  It reads the workspace program before
    anything else: when that fails the error is thrown with nothing
    printed, derived or submitted.  Otherwise it derives the config
    address for the seed "protocol_config" and the workspace program,
    and submits at most one transaction, [initializeProtocolConfig] with
    the six parameters written in the file, for that address, with the
    provider's wallet as treasury and as authority.  It returns exactly
    when that transaction is confirmed; when the derivation or the
    submission fails it prints "Deployment failed:" with the error on
    the error stream, once, and rethrows that same error. *)
Theorem deploy_reports_and_rethrows (env : Workspace.Env) (provider : Provider)
    (w : Workspace.World env) :
  let r := Workspace.run env (Workspace.deploy provider) w in
  let tr := Workspace.trace r in
  match Workspace.workspace_programs tr with
  | [] =>
      ∃ e, Workspace.result r = inl e ∧ Workspace.faults tr = [e]
           ∧ Workspace.on_stdout tr = [] ∧ Workspace.on_stderr tr = []
           ∧ Workspace.derivations tr = [] ∧ Workspace.submissions tr = []
  | programId :: _ =>
      ∃ found,
        Workspace.derivations tr = [(["protocol_config"], programId, found)]
        ∧ match found with
          | inl e =>
              Workspace.submissions tr = []
              ∧ Workspace.result r = inl e
              ∧ Workspace.on_stderr tr
                = [[Workspace.Str "❌ Deployment failed:"; Workspace.Err e]]
          | inr address =>
              ∃ verdict,
                Workspace.submissions tr
                = [(Workspace.DEPLOY_ARGS,
                    Workspace.deploy_accounts (wallet_publicKey provider) address.1,
                    verdict)]
                ∧ match verdict with
                  | inl e =>
                      Workspace.result r = inl e
                      ∧ Workspace.on_stderr tr
                        = [[Workspace.Str "❌ Deployment failed:"; Workspace.Err e]]
                  | inr tx =>
                      Workspace.result r = inr tt ∧ Workspace.on_stderr tr = []
                  end
          end
  end.
Proof.
  intros r tr. subst tr r.
  match goal with |- ?G =>
    let Q := eval pattern
      (Workspace.trace (Workspace.run env (Workspace.deploy provider) w)),
      (Workspace.result (Workspace.run env (Workspace.deploy provider) w)) in G in
    lazymatch Q with ?Q' _ _ => apply (workspace_wp_run env _ Q' w) end
  end.
  unfold Workspace.deploy, Workspace.call, Workspace.console_log,
    Workspace.console_error. cbn.
  intros [e|programId]; cbn; [by exists e|].
  intros [e|found]; cbn; [by eexists|].
  intros [e|tx]; cbn; eexists; (split; [reflexivity|]); by eexists.
Qed.

